(** * go-backstage: the HTTP client of package [backstage]

    Shallow embedding of [backstage/backstage.go] ([NewClient],
    [newRequest], [do]) together with models of the parts of the Go
    standard library the three functions call ([strings], [net/url],
    [net/textproto], [net/http], [encoding/json]).

    Go strings are byte sequences; they are modelled by [string], whose
    characters are 8-bit [ascii] values. The library models follow the
    sources of Go 1.22. What lies outside the program is a parameter: the
    answer of the HTTP transport, the JSON codec of the Go type of a body
    or a destination, and the catalog service of the package. *)

From Stdlib Require Import String Ascii NArith ZArith Bool List Lia.
From stdpp Require Import gmap strings.

Local Open Scope string_scope.

(** A Go call that returns [(T, error)]: [inl e] is the error return. *)
Definition result (E T : Type) : Type := (E + T)%type.

Definition bind {E A B : Type} (r : result E A) (k : A -> result E B) : result E B :=
  match r with
  | inl e => inl e
  | inr a => k a
  end.

Notation "'let?' x ':=' r 'in' k" := (bind r (fun x => k))
  (at level 10, x pattern, r at level 100, k at level 200).

(** ** Bytes *)

Module byte.

Definition le (a b : ascii) : bool := (N_of_ascii a <=? N_of_ascii b)%N.

(** [lo <= c && c <= hi] *)
Definition between (lo hi c : ascii) : bool := le lo c && le c hi.

(** [c] is one of the bytes of [set] (a Go [switch c { case ... }]). *)
Fixpoint one_of (c : ascii) (set : string) : bool :=
  match set with
  | EmptyString => false
  | String a set' => Ascii.eqb c a || one_of c set'
  end.

Definition is_lower (c : ascii) : bool := between "a" "z" c.
Definition is_upper (c : ascii) : bool := between "A" "Z" c.
Definition is_digit (c : ascii) : bool := between "0" "9" c.
Definition is_alnum (c : ascii) : bool := is_lower c || is_upper c || is_digit c.

(** The double quote, byte 34;  the backslash, byte 92. *)
Definition dquote : ascii := "034"%char.
Definition backslash : ascii := "092"%char.

Definition add (c : ascii) (n : N) : ascii := ascii_of_N (N_of_ascii c + n).
Definition sub (c : ascii) (n : N) : ascii := ascii_of_N (N_of_ascii c - n).

End byte.

(** ** Package [strings] (separators are single bytes, as in every call
    the client makes) *)

Module strings.

(** [s[:n]] *)
Fixpoint take (n : nat) (s : string) : string :=
  match n, s with
  | S n', String c s' => String c (take n' s')
  | _, _ => EmptyString
  end.

(** [s[n:]] *)
Fixpoint drop (n : nat) (s : string) : string :=
  match n, s with
  | S n', String _ s' => drop n' s'
  | _, _ => s
  end.

Definition isEmpty (s : string) : bool :=
  match s with EmptyString => true | _ => false end.

(** [len(s) >= len(prefix) && s[:len(prefix)] == prefix] *)
Definition HasPrefix (s prefix : string) : bool :=
  Nat.leb (String.length prefix) (String.length s)
  && String.eqb (take (String.length prefix) s) prefix.

(** [len(s) >= len(suffix) && s[len(s)-len(suffix):] == suffix] *)
Definition HasSuffix (s suffix : string) : bool :=
  Nat.leb (String.length suffix) (String.length s)
  && String.eqb (drop (String.length s - String.length suffix) s) suffix.

Definition TrimSuffix (s suffix : string) : string :=
  if HasSuffix s suffix
  then take (String.length s - String.length suffix) s
  else s.

Fixpoint IndexByte (s : string) (c : ascii) : option nat :=
  match s with
  | EmptyString => None
  | String a s' =>
      if Ascii.eqb a c then Some 0
      else match IndexByte s' c with
           | Some i => Some (S i)
           | None => None
           end
  end.

Fixpoint LastIndexByte (s : string) (c : ascii) : option nat :=
  match s with
  | EmptyString => None
  | String a s' =>
      match LastIndexByte s' c with
      | Some i => Some (S i)
      | None => if Ascii.eqb a c then Some 0 else None
      end
  end.

(** [Index(s, substr)] for a separator of any length. *)
Fixpoint Index (s substr : string) : option nat :=
  if HasPrefix s substr then Some 0
  else match s with
       | EmptyString => None
       | String _ s' =>
           match Index s' substr with
           | Some i => Some (S i)
           | None => None
           end
       end.

Definition Contains (s : string) (c : ascii) : bool :=
  match IndexByte s c with Some _ => true | None => false end.

Fixpoint Count (s : string) (c : ascii) : nat :=
  match s with
  | EmptyString => 0
  | String a s' => (if Ascii.eqb a c then 1 else 0) + Count s' c
  end.

(** [Cut(s, sep)]: the text before and after the first [sep]. *)
Definition Cut (s : string) (sep : ascii) : string * string * bool :=
  match IndexByte s sep with
  | Some i => (take i s, drop (S i) s, true)
  | None => (s, EmptyString, false)
  end.

Fixpoint map (f : ascii -> ascii) (s : string) : string :=
  match s with
  | EmptyString => EmptyString
  | String c s' => String (f c) (map f s')
  end.

Definition toLowerByte (c : ascii) : ascii :=
  if byte.is_upper c then byte.add c 32 else c.

(** [ToLower] on the ASCII letters; other bytes are kept. *)
Definition ToLower (s : string) : string := map toLowerByte s.

Fixpoint all (p : ascii -> bool) (s : string) : bool :=
  match s with
  | EmptyString => true
  | String c s' => p c && all p s'
  end.

End strings.

(** ** Go [error] values

    The constructors are the error types and sentinel values that the
    standard-library calls of the client can return. *)

Inductive error : Type :=
| errorString (msg : string)                     (* errors.New, fmt.Errorf *)
| url_EscapeError (s : string)                   (* net/url: invalid URL escape *)
| url_InvalidHostError (s : string)              (* net/url: invalid character in host name *)
| url_Error (Op URL : string) (Err : error)      (* *url.Error *)
| io_EOF
| io_ErrUnexpectedEOF
| json_SyntaxError (msg : string)                (* *json.SyntaxError *)
| json_InvalidUnmarshalError                     (* *json.InvalidUnmarshalError *)
| json_UnmarshalTypeError (Value : string)       (* *json.UnmarshalTypeError *)
| json_UnsupportedTypeError (Type_ : string)     (* *json.UnsupportedTypeError *)
| json_MarshalerError (msg : string).            (* *json.MarshalerError *)

(** ** Package [path] *)

Module path.

Import strings.

(** The [..] case of [Clean] when it can backtrack: the write index
    moves back to the last slash, not below [dotdot]. *)
Fixpoint backtrack (w : nat) (out : string) (dotdot : nat) : nat :=
  match w with
  | O => O
  | S w' =>
      if Nat.ltb dotdot w
         && negb (match String.get w out with
                  | Some c => Ascii.eqb c "/"
                  | None => false
                  end)
      then backtrack w' out dotdot
      else w
  end.

(** The loop of [Clean] over the unread part [s] of the path. [inElem]
    holds while a path element is being copied; [out] is the buffer
    written so far. *)
Fixpoint Clean_loop (rooted inElem : bool) (s out : string) (dotdot : nat) : string :=
  match s with
  | EmptyString => out
  | String c s1 =>
      if Ascii.eqb c "/" then Clean_loop rooted false s1 out dotdot
      else if inElem then Clean_loop rooted true s1 (out ++ String c EmptyString) dotdot
      else
        let element :=
          let out :=
            if rooted && negb (Nat.eqb (String.length out) 1)
               || negb rooted && negb (Nat.eqb (String.length out) 0)
            then out ++ "/" else out in
          Clean_loop rooted true s1 (out ++ String c EmptyString) dotdot in
        if Ascii.eqb c "." then
          match s1 with
          | EmptyString => Clean_loop rooted false s1 out dotdot
          | String c1 s2 =>
              if Ascii.eqb c1 "/" then Clean_loop rooted false s1 out dotdot
              else if Ascii.eqb c1 "."
                      && match s2 with
                         | EmptyString => true
                         | String c2 _ => Ascii.eqb c2 "/"
                         end
              then
                if Nat.ltb dotdot (String.length out) then
                  Clean_loop rooted false s2
                    (take (backtrack (String.length out - 1) out dotdot) out) dotdot
                else if negb rooted then
                  let out := (if Nat.ltb 0 (String.length out) then out ++ "/" else out)
                             ++ ".." in
                  Clean_loop rooted false s2 out (String.length out)
                else Clean_loop rooted false s2 out dotdot
              else element
          end
        else element
  end.

Definition Clean (path : string) : string :=
  match path with
  | EmptyString => "."
  | String c rest =>
      let out :=
        if Ascii.eqb c "/" then Clean_loop true false rest "/" 1
        else Clean_loop false false path EmptyString 0 in
      if isEmpty out then "." else out
  end.

(** [Join(elem...)]: the non-empty elements joined by slashes, cleaned. *)
Fixpoint Join_buf (buf : string) (elem : list string) : string :=
  match elem with
  | nil => buf
  | e :: elem' =>
      if negb (isEmpty buf) || negb (isEmpty e)
      then Join_buf ((if negb (isEmpty buf) then buf ++ "/" else buf) ++ e) elem'
      else Join_buf buf elem'
  end.

Definition Join (elem : list string) : string :=
  if Nat.eqb (List.fold_right (fun e n => String.length e + n) 0 elem) 0
  then EmptyString
  else Clean (Join_buf EmptyString elem).

End path.

(** ** Package [net/url] *)

Module url.

Import strings.

Inductive encoding : Type :=
| encodePath
| encodePathSegment
| encodeHost
| encodeZone
| encodeUserPassword
| encodeQueryComponent
| encodeFragment.

Definition encoding_eqb (a b : encoding) : bool :=
  match a, b with
  | encodePath, encodePath
  | encodePathSegment, encodePathSegment
  | encodeHost, encodeHost
  | encodeZone, encodeZone
  | encodeUserPassword, encodeUserPassword
  | encodeQueryComponent, encodeQueryComponent
  | encodeFragment, encodeFragment => true
  | _, _ => false
  end.

Definition ishex (c : ascii) : bool :=
  byte.is_digit c || byte.between "a" "f" c || byte.between "A" "F" c.

Definition unhex (c : ascii) : N :=
  if byte.is_digit c then N_of_ascii c - N_of_ascii "0"
  else if byte.between "a" "f" c then N_of_ascii c - N_of_ascii "a" + 10
  else if byte.between "A" "F" c then N_of_ascii c - N_of_ascii "A" + 10
  else 0.

Definition upperhex (n : N) : ascii :=
  match String.get (N.to_nat n) "0123456789ABCDEF" with
  | Some c => c
  | None => "0"%char
  end.

(** [shouldEscape(c, mode)]: must [c] be escaped when it stands in the
    part of a URL that [mode] names. *)
Definition shouldEscape (c : ascii) (mode : encoding) : bool :=
  if byte.is_alnum c then false
  else if (encoding_eqb mode encodeHost || encoding_eqb mode encodeZone)
          && (byte.one_of c "!$&'()*+,;=:[]<>" || Ascii.eqb c byte.dquote) then false
  else if byte.one_of c "-_.~" then false
  else if byte.one_of c "$&+,/:;=?@" then
    match mode with
    | encodePath => Ascii.eqb c "?"
    | encodePathSegment => byte.one_of c "/;,?"
    | encodeUserPassword => byte.one_of c "@/?:"
    | encodeQueryComponent => true
    | encodeFragment => false
    | encodeHost | encodeZone => true
    end
  else if encoding_eqb mode encodeFragment && byte.one_of c "!()*" then false
  else true.


(** First pass of [unescape]: every [%] starts a well-formed escape
    that [mode] allows, and a host holds no byte that needs one. *)
Fixpoint unescape_check (s : string) (mode : encoding) : option error :=
  match s with
  | EmptyString => None
  | String c s1 =>
      if Ascii.eqb c "%" then
        match s1 with
        | String h1 (String h2 s3) =>
            if negb (ishex h1) || negb (ishex h2) then Some (url_EscapeError (take 3 s))
            else if encoding_eqb mode encodeHost && (unhex h1 <? 8)%N
                    && negb (String.eqb (take 3 s) "%25")
            then Some (url_EscapeError (take 3 s))
            else if encoding_eqb mode encodeZone
                    && negb (String.eqb (take 3 s) "%25")
                    && negb (Ascii.eqb (ascii_of_N (unhex h1 * 16 + unhex h2)) " ")
                    && shouldEscape (ascii_of_N (unhex h1 * 16 + unhex h2)) encodeHost
            then Some (url_EscapeError (take 3 s))
            else unescape_check s3 mode
        | _ => Some (url_EscapeError (take 3 s))
        end
      else if (encoding_eqb mode encodeHost || encoding_eqb mode encodeZone)
              && (N_of_ascii c <? 128)%N && shouldEscape c encodeHost
      then Some (url_InvalidHostError (String c EmptyString))
      else unescape_check s1 mode
  end.

(** Second pass of [unescape], on a string the first pass accepted. *)
Fixpoint unescape_copy (s : string) (mode : encoding) : string :=
  match s with
  | EmptyString => EmptyString
  | String c s1 =>
      if Ascii.eqb c "%" then
        match s1 with
        | String h1 (String h2 s3) =>
            String (ascii_of_N (unhex h1 * 16 + unhex h2)) (unescape_copy s3 mode)
        | _ => EmptyString
        end
      else if Ascii.eqb c "+" && encoding_eqb mode encodeQueryComponent
      then String " " (unescape_copy s1 mode)
      else String c (unescape_copy s1 mode)
  end.

Definition unescape (s : string) (mode : encoding) : result error string :=
  match unescape_check s mode with
  | Some e => inl e
  | None => inr (unescape_copy s mode)
  end.

Definition escapeByte (c : ascii) (mode : encoding) : string :=
  if Ascii.eqb c " " && encoding_eqb mode encodeQueryComponent then "+"
  else if shouldEscape c mode
  then String "%" (String (upperhex (N_of_ascii c / 16))
                     (String (upperhex (N.land (N_of_ascii c) 15)) EmptyString))
  else String c EmptyString.

Fixpoint escape (s : string) (mode : encoding) : string :=
  match s with
  | EmptyString => EmptyString
  | String c s' => escapeByte c mode ++ escape s' mode
  end.

(** [validEncoded(s, mode)]: [s] is a valid encoded path or fragment. *)
Definition validEncoded (s : string) (mode : encoding) : bool :=
  all (fun c => byte.one_of c "!$&'()*+,;=:@[]%" || negb (shouldEscape c mode)) s.

Definition stringContainsCTLByte (s : string) : bool :=
  negb (all (fun c => negb ((N_of_ascii c <? 32)%N || (N_of_ascii c =? 127)%N)) s).

(** [getScheme(rawURL)]: [(scheme, rest)], where [rest] follows the colon. *)
Fixpoint getScheme_from (i : nat) (rawURL s : string) : result error (string * string) :=
  match s with
  | EmptyString => inr (EmptyString, rawURL)
  | String c s' =>
      if byte.is_lower c || byte.is_upper c then getScheme_from (S i) rawURL s'
      else if byte.is_digit c || byte.one_of c "+-." then
        if Nat.eqb i 0 then inr (EmptyString, rawURL)
        else getScheme_from (S i) rawURL s'
      else if Ascii.eqb c ":" then
        if Nat.eqb i 0 then inl (errorString "missing protocol scheme")
        else inr (take i rawURL, drop (S i) rawURL)
      else inr (EmptyString, rawURL)
  end.

Definition getScheme (rawURL : string) : result error (string * string) :=
  getScheme_from 0 rawURL rawURL.

(** [*Userinfo]: user name and optional password. *)
Record Userinfo : Type := mkUserinfo {
  username : string;
  password : string;
  passwordSet : bool
}.

Record URL : Type := mkURL {
  Scheme : string;
  Opaque : string;            (* encoded opaque data *)
  User : option Userinfo;     (* username and password information *)
  Host : string;              (* host or host:port *)
  Path : string;              (* path (relative paths may omit leading slash) *)
  RawPath : string;           (* encoded path hint *)
  OmitHost : bool;            (* do not emit empty host (authority) *)
  ForceQuery : bool;          (* append a query ('?') even if RawQuery is empty *)
  RawQuery : string;          (* encoded query values, without '?' *)
  Fragment : string;          (* fragment for references, without '#' *)
  RawFragment : string        (* encoded fragment hint *)
}.

(** [new(URL)] *)
Definition zero : URL :=
  mkURL EmptyString EmptyString None EmptyString EmptyString EmptyString
        false false EmptyString EmptyString EmptyString.

Definition validOptionalPort (port : string) : bool :=
  match port with
  | EmptyString => true
  | String c digits => Ascii.eqb c ":" && all byte.is_digit digits
  end.

Definition validUserinfo (s : string) : bool :=
  all (fun r => byte.is_alnum r || byte.one_of r "-._:~!$&'()*+,;=%@") s.

(** [parseHost(host)]: [host] is an authority without user information,
    [host[:port]]. *)
Definition parseHost (host : string) : result error string :=
  let plain := unescape host encodeHost in
  if HasPrefix host "[" then
    match LastIndexByte host "]" with
    | None => inl (errorString "missing ']' in host")
    | Some i =>
        let colonPort := drop (S i) host in
        if negb (validOptionalPort colonPort)
        then inl (errorString ("invalid port " ++ colonPort ++ " after host"))
        else
          match Index (take i host) "%25" with
          | Some zone =>
              let? host1 := unescape (take zone host) encodeHost in
              let? host2 := unescape (drop zone (take i host)) encodeZone in
              let? host3 := unescape (drop i host) encodeHost in
              inr (host1 ++ host2 ++ host3)
          | None => plain
          end
    end
  else
    match LastIndexByte host ":" with
    | Some i =>
        let colonPort := drop i host in
        if negb (validOptionalPort colonPort)
        then inl (errorString ("invalid port " ++ colonPort ++ " after host"))
        else plain
    | None => plain
    end.

Definition parseAuthority (authority : string) : result error (option Userinfo * string) :=
  match LastIndexByte authority "@" with
  | None =>
      let? host := parseHost authority in
      inr (None, host)
  | Some i =>
      let? host := parseHost (drop (S i) authority) in
      let userinfo := take i authority in
      if negb (validUserinfo userinfo)
      then inl (errorString "net/url: invalid userinfo")
      else if negb (Contains userinfo ":") then
        let? userinfo := unescape userinfo encodeUserPassword in
        inr (Some (mkUserinfo userinfo EmptyString false), host)
      else
        let '(username, password, _) := Cut userinfo ":" in
        let? username := unescape username encodeUserPassword in
        let? password := unescape password encodeUserPassword in
        inr (Some (mkUserinfo username password true), host)
  end.

(** [u.setPath(p)]: the [Path] and [RawPath] that [p] gives. *)
Definition setPath (p : string) : result error (string * string) :=
  let? path := unescape p encodePath in
  if String.eqb p (escape path encodePath)
  then inr (path, EmptyString)
  else inr (path, p).

(** [u.setFragment(f)]: the [Fragment] and [RawFragment] that [f] gives. *)
Definition setFragment (f : string) : result error (string * string) :=
  let? frag := unescape f encodeFragment in
  if String.eqb f (escape frag encodeFragment)
  then inr (frag, EmptyString)
  else inr (frag, f).

(** [parse(rawURL, viaRequest)]: a URL without [#fragment]. *)
Definition parse (rawURL : string) (viaRequest : bool) : result error URL :=
  if stringContainsCTLByte rawURL
  then inl (errorString "net/url: invalid control character in URL")
  else if isEmpty rawURL && viaRequest
  then inl (errorString "empty url")
  else if String.eqb rawURL "*"
  then inr (mkURL EmptyString EmptyString None EmptyString "*" EmptyString
                  false false EmptyString EmptyString EmptyString)
  else
    let? (scheme, rest) := getScheme rawURL in
    let scheme := ToLower scheme in
    let '(rest, rawQuery, forceQuery) :=
      if HasSuffix rest "?" && Nat.eqb (Count rest "?") 1
      then (take (String.length rest - 1) rest, EmptyString, true)
      else let '(before, after, _) := Cut rest "?" in (before, after, false) in
    if negb (HasPrefix rest "/") && negb (isEmpty scheme)
    then (* rootless paths are opaque *)
      inr (mkURL scheme rest None EmptyString EmptyString EmptyString
                 false forceQuery rawQuery EmptyString EmptyString)
    else if negb (HasPrefix rest "/") && viaRequest
    then inl (errorString "invalid URI for request")
    else if negb (HasPrefix rest "/")
            && Contains (let '(segment, _, _) := Cut rest "/" in segment) ":"
    then inl (errorString "first path segment in URL cannot contain colon")
    else if (negb (isEmpty scheme) || negb viaRequest && negb (HasPrefix rest "///"))
            && HasPrefix rest "//"
    then
      let authority := drop 2 rest in
      let '(authority, rest) :=
        match IndexByte authority "/" with
        | Some i => (take i authority, drop i authority)
        | None => (authority, EmptyString)
        end in
      let? (user, host) := parseAuthority authority in
      let? (path, rawPath) := setPath rest in
      inr (mkURL scheme EmptyString user host path rawPath
                 false forceQuery rawQuery EmptyString EmptyString)
    else
      let omitHost := negb (isEmpty scheme) && HasPrefix rest "/" in
      let? (path, rawPath) := setPath rest in
      inr (mkURL scheme EmptyString None EmptyString path rawPath
                 omitHost forceQuery rawQuery EmptyString EmptyString).

Definition withFragment (u : URL) (fragment rawFragment : string) : URL :=
  mkURL (Scheme u) (Opaque u) (User u) (Host u) (Path u) (RawPath u)
        (OmitHost u) (ForceQuery u) (RawQuery u) fragment rawFragment.

(** [url.Parse(rawURL)] *)
Definition Parse (rawURL : string) : result error URL :=
  let '(u, frag, _) := Cut rawURL "#" in
  match parse u false with
  | inl err => inl (url_Error "parse" u err)
  | inr url =>
      if isEmpty frag then inr url
      else match setFragment frag with
           | inl err => inl (url_Error "parse" rawURL err)
           | inr (fragment, rawFragment) => inr (withFragment url fragment rawFragment)
           end
  end.

Definition EscapedPath (u : URL) : string :=
  if negb (isEmpty (RawPath u)) && validEncoded (RawPath u) encodePath
     && match unescape (RawPath u) encodePath with
        | inr p => String.eqb p (Path u)
        | inl _ => false
        end
  then RawPath u
  else if String.eqb (Path u) "*" then "*"
  else escape (Path u) encodePath.

Definition EscapedFragment (u : URL) : string :=
  if negb (isEmpty (RawFragment u)) && validEncoded (RawFragment u) encodeFragment
     && match unescape (RawFragment u) encodeFragment with
        | inr f => String.eqb f (Fragment u)
        | inl _ => false
        end
  then RawFragment u
  else escape (Fragment u) encodeFragment.

Definition Userinfo_String (ui : Userinfo) : string :=
  escape (username ui) encodeUserPassword
  ++ (if passwordSet ui then ":" ++ escape (password ui) encodeUserPassword
      else EmptyString).

Definition isSome {A : Type} (o : option A) : bool :=
  match o with Some _ => true | None => false end.

(** [u.String()]: the text written to the buffer, part by part. *)
Definition String_scheme (u : URL) : string :=
  if negb (isEmpty (Scheme u)) then Scheme u ++ ":" else EmptyString.

Definition String_authority (u : URL) : string :=
  if negb (isEmpty (Scheme u)) || negb (isEmpty (Host u)) || isSome (User u) then
    if OmitHost u && isEmpty (Host u) && negb (isSome (User u)) then EmptyString
    else
      (if negb (isEmpty (Host u)) || negb (isEmpty (Path u)) || isSome (User u)
       then "//" else EmptyString)
      ++ match User u with
         | Some ui => Userinfo_String ui ++ "@"
         | None => EmptyString
         end
      ++ (if negb (isEmpty (Host u)) then escape (Host u) encodeHost else EmptyString)
  else EmptyString.

Definition String_path (u : URL) (written : string) : string :=
  let path := EscapedPath u in
  let buf :=
    written
    ++ (if negb (isEmpty path) && negb (HasPrefix path "/") && negb (isEmpty (Host u))
        then "/" else EmptyString) in
  let buf :=
    buf
    ++ (if isEmpty buf && Contains (let '(segment, _, _) := Cut path "/" in segment) ":"
        then "./" else EmptyString) in
  buf ++ path.

Definition String_ (u : URL) : string :=
  (if negb (isEmpty (Opaque u)) then String_scheme u ++ Opaque u
   else String_path u (String_scheme u ++ String_authority u))
  ++ (if ForceQuery u || negb (isEmpty (RawQuery u)) then "?" ++ RawQuery u
      else EmptyString)
  ++ (if negb (isEmpty (Fragment u)) then "#" ++ EscapedFragment u else EmptyString).

Definition withPath (u : URL) (path rawPath : string) : URL :=
  mkURL (Scheme u) (Opaque u) (User u) (Host u) path rawPath
        (OmitHost u) (ForceQuery u) (RawQuery u) (Fragment u) (RawFragment u).

(** [u.Path = p], the assignment to the field alone. *)
Definition assignPath (u : URL) (p : string) : URL := withPath u p (RawPath u).

(** [u.setPath(p)] with the error dropped, as the callers below do: on an
    error the URL is left as it was. *)
Definition setPath_ignore (u : URL) (p : string) : URL :=
  match setPath p with
  | inr (path, rawPath) => withPath u path rawPath
  | inl _ => u
  end.

(** [strings.Split(s, "/")]: the elements that the [Cut] loop of
    [resolvePath] visits, in order. *)
Fixpoint elements (s : string) : list string :=
  match s with
  | EmptyString => EmptyString :: nil
  | String c s' =>
      if Ascii.eqb c "/" then EmptyString :: elements s'
      else match elements s' with
           | e :: es => String c e :: es
           | nil => String c EmptyString :: nil
           end
  end.

(** One round of the loop of [resolvePath]: [dst] is the builder. *)
Definition resolvePath_step (st : string * bool) (elem : string) : string * bool :=
  let '(dst, first) := st in
  if String.eqb elem "." then (dst, false)
  else if String.eqb elem ".." then
    let str := drop 1 dst in
    match LastIndexByte str "/" with
    | None => ("/", true)
    | Some index => ("/" ++ take index str, first)
    end
  else ((if first then dst else dst ++ "/") ++ elem, false).

(** [resolvePath(base, ref)]: [ref] resolved against [base], per RFC 3986. *)
Definition resolvePath (base ref : string) : string :=
  let full :=
    match ref with
    | EmptyString => base
    | String c _ =>
        if Ascii.eqb c "/" then ref
        else match LastIndexByte base "/" with
             | Some i => take (S i) base ++ ref
             | None => ref
             end
    end in
  if isEmpty full then EmptyString
  else
    let elems := elements full in
    let '(dst, _) := List.fold_left resolvePath_step elems ("/", true) in
    let elem := List.last elems EmptyString in
    let r := if String.eqb elem "." || String.eqb elem ".." then dst ++ "/" else dst in
    if Nat.ltb 1 (String.length r) && HasPrefix (drop 1 r) "/" then drop 1 r else r.

(** [u.ResolveReference(ref)] *)
Definition ResolveReference (u ref : URL) : URL :=
  let scheme := if isEmpty (Scheme ref) then Scheme u else Scheme ref in
  let url := mkURL scheme (Opaque ref) (User ref) (Host ref) (Path ref) (RawPath ref)
                   (OmitHost ref) (ForceQuery ref) (RawQuery ref)
                   (Fragment ref) (RawFragment ref) in
  if negb (isEmpty (Scheme ref)) || negb (isEmpty (Host ref)) || isSome (User ref)
  then setPath_ignore url (resolvePath (EscapedPath ref) EmptyString)
  else if negb (isEmpty (Opaque ref))
  then mkURL scheme (Opaque ref) None EmptyString EmptyString (RawPath ref)
             (OmitHost ref) (ForceQuery ref) (RawQuery ref)
             (Fragment ref) (RawFragment ref)
  else
    let inherit := isEmpty (Path ref) && negb (ForceQuery ref) && isEmpty (RawQuery ref) in
    let rawQuery := if inherit then RawQuery u else RawQuery ref in
    let fragment :=
      if inherit && isEmpty (Fragment ref) then Fragment u else Fragment ref in
    let rawFragment :=
      if inherit && isEmpty (Fragment ref) then RawFragment u else RawFragment ref in
    if isEmpty (Path ref) && negb (isEmpty (Opaque u))
    then mkURL scheme (Opaque u) None EmptyString EmptyString (RawPath ref)
               (OmitHost ref) (ForceQuery ref) rawQuery fragment rawFragment
    else
      setPath_ignore
        (mkURL scheme (Opaque ref) (User u) (Host u) (Path ref) (RawPath ref)
               (OmitHost ref) (ForceQuery ref) rawQuery fragment rawFragment)
        (resolvePath (EscapedPath u) (EscapedPath ref)).

(** [u.JoinPath(elem...)] *)
Definition URL_JoinPath (u : URL) (elem : list string) : URL :=
  let elem0 := EscapedPath u in
  let p :=
    if negb (HasPrefix elem0 "/")
    then drop 1 (path.Join (("/" ++ elem0) :: elem))
    else path.Join (elem0 :: elem) in
  let p :=
    if HasSuffix (List.last elem elem0) "/" && negb (HasSuffix p "/")
    then p ++ "/" else p in
  setPath_ignore u p.

(** [url.JoinPath(base, elem...)]: the result string and the error. *)
Definition JoinPath (base : string) (elem : list string) : string * option error :=
  match Parse base with
  | inl err => (EmptyString, Some err)
  | inr url => (String_ (URL_JoinPath url elem), None)
  end.

End url.

(** ** Package [net/textproto] *)

Module textproto.

Import strings.

(** [tchar] of RFC 7230: the bytes of a header field name or a method. *)
Definition isTokenByte (c : ascii) : bool :=
  byte.is_alnum c || byte.one_of c "!#$%&'*+-.^_`|~".

Definition validHeaderFieldByte (c : ascii) : bool := isTokenByte c.

(** Upper case for the first letter and after each dash, lower case for
    the other letters. *)
Fixpoint canonicalCase (upper : bool) (a : string) : string :=
  match a with
  | EmptyString => EmptyString
  | String c a' =>
      let c :=
        if upper && byte.is_lower c then byte.sub c 32
        else if negb upper && byte.is_upper c then byte.add c 32
        else c in
      String c (canonicalCase (Ascii.eqb c "-") a')
  end.

(** [CanonicalMIMEHeaderKey(s)]: a key with a byte that no field name
    may hold is returned as it is. *)
Definition CanonicalMIMEHeaderKey (s : string) : string :=
  if all validHeaderFieldByte s then canonicalCase true s else s.

End textproto.

(** ** Package [context] *)

Module context.

(** A context is known here by how it was made and whether it is done. *)
Inductive Context : Type :=
| Background
| WithCancel (parent : Context) (canceled : bool)
| WithDeadline (parent : Context) (expired : bool).

End context.

(** ** Package [net/http] *)

Module http.

Import strings.

(** [http.Header], a [map[string][]string]. *)
Abbreviation Header := (gmap string (list string)).

Definition Header_Set (h : Header) (key value : string) : Header :=
  <[textproto.CanonicalMIMEHeaderKey key := value :: nil]> h.

Definition Header_Get (h : Header) (key : string) : string :=
  match h !! textproto.CanonicalMIMEHeaderKey key with
  | Some (v :: _) => v
  | _ => EmptyString
  end.

Record Request : Type := mkRequest {
  ctx : context.Context;
  Method : string;
  URL : url.URL;
  Header_ : Header;
  Body : option string;     (* the bytes the body reader yields; [None] is a nil body *)
  ContentLength : Z;
  Host : string
}.

(** The body of a response: the bytes the server sent and whether the
    reader has been closed. *)
Record ReadCloser : Type := mkReadCloser {
  content : string;
  closed : bool
}.

Definition Close (b : ReadCloser) : ReadCloser := mkReadCloser (content b) true.

Record Response : Type := mkResponse {
  StatusCode : Z;
  RespHeader : Header;
  RespBody : ReadCloser
}.

Definition validMethod (method : string) : bool :=
  Nat.ltb 0 (String.length method) && all textproto.isTokenByte method.

Definition hasPort (s : string) : bool :=
  match LastIndexByte s ":", LastIndexByte s "]" with
  | Some i, Some j => Nat.ltb j i
  | Some _, None => true
  | None, _ => false
  end.

Definition removeEmptyPort (host : string) : string :=
  if hasPort host then TrimSuffix host ":" else host.

Definition withHost (u : url.URL) (host : string) : url.URL :=
  url.mkURL (url.Scheme u) (url.Opaque u) (url.User u) host (url.Path u)
            (url.RawPath u) (url.OmitHost u) (url.ForceQuery u) (url.RawQuery u)
            (url.Fragment u) (url.RawFragment u).

(** [http.NewRequest(method, url, body)], that is
    [NewRequestWithContext(context.Background(), ...)]; [body] is the
    content of the [*bytes.Buffer], or [None] for a nil reader. *)
Definition NewRequest (method url : string) (body : option string) : result error Request :=
  let method := if isEmpty method then "GET" else method in
  if negb (validMethod method)
  then inl (errorString ("net/http: invalid method " ++ method))
  else
    let? u := url.Parse url in
    let u := withHost u (removeEmptyPort (url.Host u)) in
    inr (mkRequest context.Background method u ∅ body
           (match body with
            | Some b => Z.of_nat (String.length b)
            | None => 0%Z
            end)
           (url.Host u)).

Definition WithContext (r : Request) (c : context.Context) : Request :=
  mkRequest c (Method r) (URL r) (Header_ r) (Body r) (ContentLength r) (Host r).

Definition setHeader (r : Request) (key value : string) : Request :=
  mkRequest (ctx r) (Method r) (URL r) (Header_Set (Header_ r) key value)
            (Body r) (ContentLength r) (Host r).

(** [http.Client]: its configuration. What [Client.Do] answers is
    decided outside the program, by the network and the server. *)
Record Client : Type := mkClient {
  Transport : option (Request -> result error Response);
  Timeout : Z
}.

(** [&http.Client{}] *)
Definition zeroClient : Client := mkClient None 0%Z.

End http.

(** ** Package [encoding/json] *)

Module json.

Import strings.

(** *** The scanner (scanner.go): a state machine over the input bytes *)

(** The step functions a scanner can hold in its [step] field. *)
Inductive stepFn : Type :=
| BeginValueOrEmpty | BeginValue | BeginStringOrEmpty | BeginString
| EndValue | EndTop
| InString | InStringEsc | InStringEscU | InStringEscU1 | InStringEscU12 | InStringEscU123
| Neg | Num1 | Num0 | Dot | Dot0 | Exp | ESign | E0
| LitT | LitTr | LitTru | LitF | LitFa | LitFal | LitFals | LitN | LitNu | LitNul
| Error.

(** What a step reports about the byte it consumed. *)
Inductive scanCode : Type :=
| scanContinue | scanBeginLiteral | scanBeginObject | scanObjectKey
| scanObjectValue | scanEndObject | scanBeginArray | scanArrayValue
| scanEndArray | scanSkipSpace | scanEnd | scanError.

Inductive parseKind : Type := parseObjectKey | parseObjectValue | parseArrayValue.

(** [parseState] is a stack; its top is the head of the list. *)
Record scanner : Type := mkScanner {
  step : stepFn;
  endTop : bool;
  parseState : list parseKind;
  err : option error
}.

Definition maxNestingDepth : N := 10000.

(** [s.reset()] *)
Definition reset : scanner := mkScanner BeginValue false nil None.

Definition setStep (s : scanner) (f : stepFn) : scanner :=
  mkScanner f (endTop s) (parseState s) (err s).

(** [s.error(c, context)] *)
Definition error_ (s : scanner) (c : ascii) (context : string) : scanner * scanCode :=
  (mkScanner Error (endTop s) (parseState s)
     (Some (json_SyntaxError ("invalid character " ++ String c EmptyString ++ " " ++ context))),
   scanError).

Definition pushParseState (s : scanner) (c : ascii) (newParseState : parseKind)
    (successState : scanCode) : scanner * scanCode :=
  let s := mkScanner (step s) (endTop s) (newParseState :: parseState s) (err s) in
  if (N.of_nat (List.length (parseState s)) <=? maxNestingDepth)%N
  then (s, successState)
  else error_ s c "exceeded max depth".

Definition popParseState (s : scanner) : scanner :=
  match List.tl (parseState s) with
  | nil => mkScanner EndTop true nil (err s)
  | rest => mkScanner EndValue (endTop s) rest (err s)
  end.

Definition setTop (s : scanner) (k : parseKind) : scanner :=
  mkScanner (step s) (endTop s) (k :: List.tl (parseState s)) (err s).

Definition isSpace (c : ascii) : bool :=
  Ascii.eqb c " " || Ascii.eqb c "009" || Ascii.eqb c "013" || Ascii.eqb c "010".

Definition isHexDigit (c : ascii) : bool :=
  byte.is_digit c || byte.between "a" "f" c || byte.between "A" "F" c.

Definition stateEndTop (s : scanner) (c : ascii) : scanner * scanCode :=
  if negb (isSpace c)
  then (fst (error_ s c "after top-level value"), scanEnd)
  else (s, scanEnd).

Definition stateEndValue (s : scanner) (c : ascii) : scanner * scanCode :=
  match parseState s with
  | nil => stateEndTop (mkScanner EndTop true (parseState s) (err s)) c
  | ps :: _ =>
      if isSpace c then (setStep s EndValue, scanSkipSpace)
      else
        match ps with
        | parseObjectKey =>
            if Ascii.eqb c ":"
            then (setStep (setTop s parseObjectValue) BeginValue, scanObjectKey)
            else error_ s c "after object key"
        | parseObjectValue =>
            if Ascii.eqb c ","
            then (setStep (setTop s parseObjectKey) BeginString, scanObjectValue)
            else if Ascii.eqb c "}" then (popParseState s, scanEndObject)
            else error_ s c "after object key:value pair"
        | parseArrayValue =>
            if Ascii.eqb c "," then (setStep s BeginValue, scanArrayValue)
            else if Ascii.eqb c "]" then (popParseState s, scanEndArray)
            else error_ s c "after array element"
        end
  end.

Definition stateBeginValue (s : scanner) (c : ascii) : scanner * scanCode :=
  if isSpace c then (s, scanSkipSpace)
  else if Ascii.eqb c "{"
  then pushParseState (setStep s BeginStringOrEmpty) c parseObjectKey scanBeginObject
  else if Ascii.eqb c "["
  then pushParseState (setStep s BeginValueOrEmpty) c parseArrayValue scanBeginArray
  else if Ascii.eqb c byte.dquote then (setStep s InString, scanBeginLiteral)
  else if Ascii.eqb c "-" then (setStep s Neg, scanBeginLiteral)
  else if Ascii.eqb c "0" then (setStep s Num0, scanBeginLiteral)
  else if Ascii.eqb c "t" then (setStep s LitT, scanBeginLiteral)
  else if Ascii.eqb c "f" then (setStep s LitF, scanBeginLiteral)
  else if Ascii.eqb c "n" then (setStep s LitN, scanBeginLiteral)
  else if byte.between "1" "9" c then (setStep s Num1, scanBeginLiteral)
  else error_ s c "looking for beginning of value".

Definition stateBeginValueOrEmpty (s : scanner) (c : ascii) : scanner * scanCode :=
  if isSpace c then (s, scanSkipSpace)
  else if Ascii.eqb c "]" then stateEndValue s c
  else stateBeginValue s c.

Definition stateBeginString (s : scanner) (c : ascii) : scanner * scanCode :=
  if isSpace c then (s, scanSkipSpace)
  else if Ascii.eqb c byte.dquote then (setStep s InString, scanBeginLiteral)
  else error_ s c "looking for beginning of object key string".

Definition stateBeginStringOrEmpty (s : scanner) (c : ascii) : scanner * scanCode :=
  if isSpace c then (s, scanSkipSpace)
  else if Ascii.eqb c "}" then stateEndValue (setTop s parseObjectValue) c
  else stateBeginString s c.

Definition stateInString (s : scanner) (c : ascii) : scanner * scanCode :=
  if Ascii.eqb c byte.dquote then (setStep s EndValue, scanContinue)
  else if Ascii.eqb c byte.backslash then (setStep s InStringEsc, scanContinue)
  else if (N_of_ascii c <? 32)%N then error_ s c "in string literal"
  else (s, scanContinue).

Definition stateInStringEsc (s : scanner) (c : ascii) : scanner * scanCode :=
  if byte.one_of c "bfnrt/" || Ascii.eqb c byte.backslash || Ascii.eqb c byte.dquote
  then (setStep s InString, scanContinue)
  else if Ascii.eqb c "u" then (setStep s InStringEscU, scanContinue)
  else error_ s c "in string escape code".

(** [stateInStringEscU], [...U1], [...U12], [...U123]: [next] is the step
    after a hexadecimal digit. *)
Definition stateInStringEscHex (next : stepFn) (s : scanner) (c : ascii) : scanner * scanCode :=
  if isHexDigit c then (setStep s next, scanContinue)
  else error_ s c "in \u hexadecimal character escape".

Definition state0 (s : scanner) (c : ascii) : scanner * scanCode :=
  if Ascii.eqb c "." then (setStep s Dot, scanContinue)
  else if Ascii.eqb c "e" || Ascii.eqb c "E" then (setStep s Exp, scanContinue)
  else stateEndValue s c.

Definition state1 (s : scanner) (c : ascii) : scanner * scanCode :=
  if byte.is_digit c then (setStep s Num1, scanContinue)
  else state0 s c.

Definition stateNeg (s : scanner) (c : ascii) : scanner * scanCode :=
  if Ascii.eqb c "0" then (setStep s Num0, scanContinue)
  else if byte.between "1" "9" c then (setStep s Num1, scanContinue)
  else error_ s c "in numeric literal".

Definition stateDot (s : scanner) (c : ascii) : scanner * scanCode :=
  if byte.is_digit c then (setStep s Dot0, scanContinue)
  else error_ s c "after decimal point in numeric literal".

Definition stateDot0 (s : scanner) (c : ascii) : scanner * scanCode :=
  if byte.is_digit c then (s, scanContinue)
  else if Ascii.eqb c "e" || Ascii.eqb c "E" then (setStep s Exp, scanContinue)
  else stateEndValue s c.

Definition stateESign (s : scanner) (c : ascii) : scanner * scanCode :=
  if byte.is_digit c then (setStep s E0, scanContinue)
  else error_ s c "in exponent of numeric literal".

Definition stateE (s : scanner) (c : ascii) : scanner * scanCode :=
  if Ascii.eqb c "+" || Ascii.eqb c "-" then (setStep s ESign, scanContinue)
  else stateESign s c.

Definition stateE0 (s : scanner) (c : ascii) : scanner * scanCode :=
  if byte.is_digit c then (s, scanContinue)
  else stateEndValue s c.

(** The steps inside [true], [false] and [null]: [want] is the next
    letter and [next] the step after it. *)
Definition stateLiteral (want : ascii) (next : stepFn) (lit : string)
    (s : scanner) (c : ascii) : scanner * scanCode :=
  if Ascii.eqb c want then (setStep s next, scanContinue)
  else error_ s c ("in literal " ++ lit).

(** [s.step(s, c)] *)
Definition apply (s : scanner) (c : ascii) : scanner * scanCode :=
  match step s with
  | BeginValueOrEmpty => stateBeginValueOrEmpty s c
  | BeginValue => stateBeginValue s c
  | BeginStringOrEmpty => stateBeginStringOrEmpty s c
  | BeginString => stateBeginString s c
  | EndValue => stateEndValue s c
  | EndTop => stateEndTop s c
  | InString => stateInString s c
  | InStringEsc => stateInStringEsc s c
  | InStringEscU => stateInStringEscHex InStringEscU1 s c
  | InStringEscU1 => stateInStringEscHex InStringEscU12 s c
  | InStringEscU12 => stateInStringEscHex InStringEscU123 s c
  | InStringEscU123 => stateInStringEscHex InString s c
  | Neg => stateNeg s c
  | Num1 => state1 s c
  | Num0 => state0 s c
  | Dot => stateDot s c
  | Dot0 => stateDot0 s c
  | Exp => stateE s c
  | ESign => stateESign s c
  | E0 => stateE0 s c
  | LitT => stateLiteral "r" LitTr "true" s c
  | LitTr => stateLiteral "u" LitTru "true" s c
  | LitTru => stateLiteral "e" EndValue "true" s c
  | LitF => stateLiteral "a" LitFa "false" s c
  | LitFa => stateLiteral "l" LitFal "false" s c
  | LitFal => stateLiteral "s" LitFals "false" s c
  | LitFals => stateLiteral "e" EndValue "false" s c
  | LitN => stateLiteral "u" LitNu "null" s c
  | LitNu => stateLiteral "l" LitNul "null" s c
  | LitNul => stateLiteral "l" EndValue "null" s c
  | Error => (s, scanError)
  end.

(** *** The stream decoder (stream.go) *)

Definition nonSpace (b : string) : bool := negb (all isSpace b).

Definition isEnd (code : scanCode) : bool :=
  match code with scanEnd => true | _ => false end.

Definition scanErr (s : scanner) : error :=
  match err s with
  | Some e => e
  | None => json_SyntaxError EmptyString
  end.

(** The loop of [dec.readValue()] over the bytes [buf] still to scan,
    [scanp] bytes in. [whole] is everything the reader yields: the
    reads deliver it all and then report [io.EOF]. *)
Fixpoint readValue_loop (whole : string) (s : scanner) (buf : string) (scanp : nat)
    : result error nat :=
  match buf with
  | EmptyString =>
      if isEnd (snd (apply s " ")) then inr scanp
      else if nonSpace whole then inl io_ErrUnexpectedEOF
      else inl io_EOF
  | String c buf' =>
      let '(s, code) := apply s c in
      match code with
      | scanEnd => inr scanp
      | scanEndObject | scanEndArray =>
          let '(s, code) := stateEndValue s " " in
          if isEnd code then inr (S scanp)
          else readValue_loop whole s buf' (S scanp)
      | scanError => inl (scanErr s)
      | _ => readValue_loop whole s buf' (S scanp)
      end
  end.

(** [dec.readValue()] on a new decoder: the length of the text of the
    first JSON value of the stream, or the error. *)
Definition readValue (body : string) : result error nat :=
  readValue_loop body reset body 0.

(** How the reflection-driven encoder and decoder handle the values of a
    Go type [T].
    - [marshal x] is [json.Marshal(x)];
    - [value data x] is [d.value(rv)] for a non-nil [*T] that points to
      a variable holding [x], on the text [data] of one JSON value: the
      content of the variable afterwards, and the error. *)
Class Marshaler (T : Type) : Type := marshal : T -> result error string.
Class Unmarshaler (T : Type) : Type := value : string -> T -> T * option error.

(** [d.unmarshal(v)]: [v] is [None] for a nil interface value and
    [Some x] for a pointer to a variable holding [x]. *)
Definition unmarshal {T : Type} `{Unmarshaler T} (data : string) (v : option T)
    : option T * option error :=
  match v with
  | None => (None, Some json_InvalidUnmarshalError)
  | Some x => let '(x', e) := value data x in (Some x', e)
  end.

(** [json.NewDecoder(r).Decode(v)], where the reader [r] yields [body]. *)
Definition Decode {T : Type} `{Unmarshaler T} (body : string) (v : option T)
    : option T * option error :=
  match readValue body with
  | inl e => (v, Some e)
  | inr n => unmarshal (take n body) v
  end.

(** [json.NewEncoder(buf).Encode(v)] on an empty buffer: the content of
    the buffer afterwards. Each value is terminated with a newline. *)
Definition Encode {T : Type} `{Marshaler T} (v : T) : result error string :=
  let? b := marshal v in
  inr (b ++ String "010" EmptyString).

(** The codec of Go's [bool]. *)
Fixpoint trimLeftSpace (s : string) : string :=
  match s with
  | EmptyString => EmptyString
  | String c s' => if isSpace c then trimLeftSpace s' else s
  end.

#[export] Instance bool_Marshaler : Marshaler bool :=
  fun b => inr (if b then "true" else "false").

#[export] Instance bool_Unmarshaler : Unmarshaler bool :=
  fun data x =>
    let text := trimLeftSpace data in
    if String.eqb text "true" then (true, None)
    else if String.eqb text "false" then (false, None)
    else if String.eqb text "null" then (x, None)
    else (x, Some (json_UnmarshalTypeError text)).

End json.

(** ** Package [backstage] (backstage/backstage.go) *)

(** A call that either panics or returns. *)
Inductive outcome (A : Type) : Type :=
| Panics
| Returns (a : A).
Arguments Panics {A}.
Arguments Returns {A} a.

Module backstage.

Import strings.

Definition DefaultNamespaceName : string := "default".
Definition userAgent : string := "go-backstage".
Definition contentTypeJSON : string := "application/json".

Section WithCatalog.

(** The catalog service lives in another file of the package: its type
    and its constructor are parameters. *)
Context {catalogService : Type}.

(** [Client] manages communication with the Backstage API. A nil
    pointer field is [None]. *)
Record Client : Type := mkClient {
  client : option http.Client;
  BaseURL : option url.URL;
  UserAgent : string;
  DefaultNamespace : string;
  Catalog : option catalogService;
  token : string
}.

Definition withCatalog (c : Client) (s : catalogService) : Client :=
  mkClient (client c) (BaseURL c) (UserAgent c) (DefaultNamespace c) (Some s) (token c).

Variable newCatalogService : Client -> catalogService.

(** [NewClient]: the returned pair, a [*Client] and an [error]. *)
Definition NewClient (baseURL defaultNamespace : string)
    (httpClient : option http.Client) (token : string)
    : option Client * option error :=
  let apiPath := "/api" in
  let baseURL := TrimSuffix baseURL "/" in
  let baseURL := if negb (HasSuffix baseURL apiPath) then baseURL ++ apiPath else baseURL in
  match url.Parse baseURL with
  | inl err => (None, Some err)
  | inr baseEndpoint =>
      let httpClient :=
        match httpClient with
        | None => http.zeroClient
        | Some h => h
        end in
      let ns := if isEmpty defaultNamespace then DefaultNamespaceName else defaultNamespace in
      let c := mkClient (Some httpClient) (Some baseEndpoint) userAgent ns None token in
      (Some (withCatalog c (newCatalogService c)), None)
  end.

(** [c.newRequest]: the returned pair, a [*http.Request] and an [error].
    [body] is [None] for a nil interface value. *)
Definition newRequest {T : Type} `{json.Marshaler T}
    (c : Client) (method urlStr : string) (body : option T)
    : option http.Request * option error :=
  match url.Parse urlStr with
  | inl err => (None, Some err)
  | inr u =>
      let resolvedURL :=
        match BaseURL c with
        | Some base =>
            let u := url.assignPath u
                       (fst (url.JoinPath (url.Path base) (url.Path u :: nil))) in
            url.String_ (url.ResolveReference base u)
        | None => url.String_ u
        end in
      let encoded : result error (option string) :=
        match body with
        | Some b => let? buf := json.Encode b in inr (Some buf)
        | None => inr None
        end in
      match encoded with
      | inl err => (None, Some err)
      | inr buf =>
          match http.NewRequest method resolvedURL buf with
          | inl err => (None, Some err)
          | inr req =>
              let req :=
                match body with
                | Some _ => http.setHeader req "Content-Type" contentTypeJSON
                | None => req
                end in
              let req := http.setHeader req "Accept" contentTypeJSON in
              let req :=
                if negb (isEmpty (UserAgent c))
                then http.setHeader req "User-Agent" (UserAgent c) else req in
              let req :=
                if negb (isEmpty (token c))
                then http.setHeader req "Authorization" ("Bearer " ++ token c) else req in
              (Some req, None)
          end
      end
  end.

Definition isEOF (e : option error) : bool :=
  match e with Some io_EOF => true | _ => false end.

Definition closeBody (resp : http.Response) : http.Response :=
  http.mkResponse (http.StatusCode resp) (http.RespHeader resp)
                  (http.Close (http.RespBody resp)).

Section Execution.

(** What the method [Do] of [*http.Client] answers to a request: the
    network and the server are outside the program. *)
Variable http_Client_Do : http.Client -> http.Request -> result error http.Response.

(** [c.do(ctx, req, v)]: the returned pair, a [*http.Response] and an
    [error], and the content of the variable [v] points to afterwards. [v] is [None] for
    a nil interface value. A nil [c.client] panics. *)
Definition do {T : Type} `{json.Unmarshaler T}
    (c : Client) (ctx : context.Context) (req : http.Request) (v : option T)
    : outcome (option http.Response * option error * option T) :=
  match client c with
  | None => Panics
  | Some httpClient =>
      match http_Client_Do httpClient (http.WithContext req ctx) with
      | inl err => Returns (None, Some err, v)
      | inr resp =>
          let '(v, decErr) := json.Decode (http.content (http.RespBody resp)) v in
          let decErr := if isEOF decErr then None else decErr in
          Returns (Some (closeBody resp), decErr, v)
      end
  end.

End Execution.

End WithCatalog.

Arguments Client : clear implicits.

End backstage.

(** * Definitions for the statements *)

Import strings.
Import backstage.
Import json.

(** [suffix] ends [s]. *)
Definition EndsWith (s suffix : string) : Prop := exists p : string, s = p ++ suffix.

Fixpoint lastByte (s : string) : option ascii :=
  match s with
  | EmptyString => None
  | String c EmptyString => Some c
  | String _ s' => lastByte s'
  end.

(** The only errors a scanner records are syntax errors. *)
Definition syntaxErrorsOnly (s : json.scanner) : Prop :=
  match json.err s with
  | None => True
  | Some (json_SyntaxError _) => True
  | Some _ => False
  end.

Section RequestParts.

Context {catalogService T : Type}.

(** The text [newRequest] hands to [http.NewRequest] for a parsed [u]. *)
Definition resolvedURL (c : Client catalogService) (u : url.URL) : string :=
  match BaseURL c with
  | Some base =>
      url.String_
        (url.ResolveReference base
           (url.assignPath u (fst (url.JoinPath (url.Path base) (url.Path u :: nil)))))
  | None => url.String_ u
  end.

(** The headers [newRequest] sets, in the order it sets them. *)
Definition requestHeaders (c : Client catalogService) (body : option T) : http.Header :=
  let h : http.Header := ∅ in
  let h := match body with
           | Some _ => <["Content-Type" := contentTypeJSON :: nil]> h
           | None => h
           end in
  let h := <["Accept" := contentTypeJSON :: nil]> h in
  let h := if negb (isEmpty (UserAgent c))
           then <["User-Agent" := UserAgent c :: nil]> h else h in
  if negb (isEmpty (token c))
  then <["Authorization" := ("Bearer " ++ token c)%string :: nil]> h else h.

End RequestParts.

(** A client as [NewClient] builds it for [http://localhost:7007/api]
    with a token, and the zero client of the tests. *)
Definition sampleClient : Client unit :=
  mkClient (Some http.zeroClient)
           (match url.Parse "http://localhost:7007/api" with
            | inr u => Some u
            | inl _ => None
            end)
           userAgent DefaultNamespaceName (Some tt) "secret".

Definition bareClient : Client unit :=
  mkClient None None EmptyString EmptyString None EmptyString.

(** A server that answers every request with [status] and [body], and a
    transport that cannot reach its host. *)
Definition stubServer (status : Z) (body : string)
    : http.Client -> http.Request -> result error http.Response :=
  fun _ _ => inr (http.mkResponse status ∅ (http.mkReadCloser body false)).

Definition unreachable : http.Client -> http.Request -> result error http.Response :=
  fun _ _ => inl (url_Error "Get" "http://localhost/foo/bar"
                    (errorString "dial tcp: connect: connection refused")).

Definition sampleRequest : http.Request :=
  http.mkRequest context.Background "GET"
    (url.mkURL "http" EmptyString None "localhost:7007" "/foo/bar" EmptyString
               false false EmptyString EmptyString EmptyString)
    ∅ None 0 "localhost:7007".

(** The body starts, after optional white space, with a well-formed JSON
    value that a destination holding [x] takes without an error. An
    [io.EOF] that the decoding of the destination itself reports counts as
    none: [do] drops it like the one of an empty body. *)
Definition accepted {T : Type} `{json.Unmarshaler T} (body : string) (x : T) : Prop :=
  exists n : nat,
    json.readValue body = inr n
    /\ (snd (json.value (take n body) x) = None
        \/ snd (json.value (take n body) x) = Some io_EOF).

(** The text of a stored URL, and the value a call returns with a nil error. *)
Definition stringOf (u : option url.URL) : string :=
  match u with
  | Some u => url.String_ u
  | None => EmptyString
  end.

Definition built {A : Type} (r : option A * option error) : option A :=
  match r with
  | (Some a, None) => Some a
  | _ => None
  end.

(** A Go channel, a value that [json.Marshal] refuses. *)
Inductive goChan : Type := makeChan.

#[export] Instance goChan_Marshaler : json.Marshaler goChan :=
  fun _ => inl (json_UnsupportedTypeError "chan int").

(** The names of the headers that [newRequest] can set. *)
Definition requestHeaderNames : list string :=
  "Content-Type" :: "Accept" :: "User-Agent" :: "Authorization" :: nil.

(** * Properties *)

(** ** Client construction *)

Section NewClientProperties.

Context {catalogService : Type}.
Variable newCatalogService : Client catalogService -> catalogService.

(** The text that [NewClient] hands to [url.Parse]: a trailing slash is
    trimmed and the API path segment appended if absent. *)
Lemma NewClient_parse_failure baseURL ns httpClient tok err :
  url.Parse (if negb (HasSuffix (TrimSuffix baseURL "/") "/api")
             then TrimSuffix baseURL "/" ++ "/api"
             else TrimSuffix baseURL "/") = inl err ->
  NewClient newCatalogService baseURL ns httpClient tok = (None, Some err).
Proof. intros Hparse. unfold NewClient. cbv zeta. rewrite Hparse. reflexivity. Qed.

Lemma NewClient_success baseURL ns httpClient tok c :
  NewClient newCatalogService baseURL ns httpClient tok = (Some c, None) ->
  exists baseEndpoint,
    url.Parse (if negb (HasSuffix (TrimSuffix baseURL "/") "/api")
               then TrimSuffix baseURL "/" ++ "/api"
               else TrimSuffix baseURL "/") = inr baseEndpoint
    /\ BaseURL c = Some baseEndpoint
    /\ DefaultNamespace c = (if isEmpty ns then DefaultNamespaceName else ns)
    /\ UserAgent c = userAgent
    /\ token c = tok.
Proof.
  unfold NewClient. cbv zeta.
  destruct (url.Parse _) as [err | baseEndpoint]; [discriminate |].
  intros [= <-]. exists baseEndpoint. repeat split.
Qed.

End NewClientProperties.

Lemma Parse_error_is_url_Error rawURL err :
  url.Parse rawURL = inl err -> exists u e, err = url_Error "parse" u e.
Proof.
  unfold url.Parse. destruct (Cut rawURL "#") as [[u frag] found].
  destruct (url.parse u false) as [e | parsed].
  - intros [= <-]. eauto.
  - destruct (isEmpty frag); [discriminate |].
    destruct (url.setFragment frag) as [e | [fragment rawFragment]]; [| discriminate].
    intros [= <-]. eauto.
Qed.

(** C6. After a successful construction the default namespace is the
    constant ["default"] when the supplied namespace is empty and the
    supplied namespace itself otherwise; it is never empty. *)
Theorem NewClient_default_namespace {catalogService : Type}
    (newCatalogService : Client catalogService -> catalogService)
    (baseURL ns : string) (httpClient : option http.Client) (tok : string)
    (c : Client catalogService) :
  NewClient newCatalogService baseURL ns httpClient tok = (Some c, None) ->
  (ns = EmptyString -> DefaultNamespace c = "default")
  /\ (ns <> EmptyString -> DefaultNamespace c = ns)
  /\ DefaultNamespace c <> EmptyString.
Proof.
  intros Hnew.
  destruct (NewClient_success _ _ _ _ _ _ Hnew) as (_ & _ & _ & Hns & _).
  rewrite Hns. destruct ns as [| a ns']; cbn.
  - repeat split; [congruence | discriminate].
  - repeat split; [discriminate | discriminate].
Qed.

Lemma NewClient_default_namespace_witness :
  exists c : Client unit,
    NewClient (fun _ => tt) "http://localhost:7007/api/" EmptyString None EmptyString
      = (Some c, None)
    /\ DefaultNamespace c = "default".
Proof.
  eexists. split; [vm_compute; reflexivity |].
  refine (proj1 (NewClient_default_namespace (fun _ => tt)
                   "http://localhost:7007/api/" EmptyString None EmptyString _ _) _).
  - vm_compute. reflexivity.
  - reflexivity.
Defined.

(** C7. When the base URL, with its trailing slash trimmed and the API
    segment appended if absent, does not parse, [NewClient] returns the
    parse error, a [*url.Error], and a nil client. *)
Theorem NewClient_invalid_url {catalogService : Type}
    (newCatalogService : Client catalogService -> catalogService)
    (baseURL ns : string) (httpClient : option http.Client) (tok : string) (err : error) :
  url.Parse (if negb (HasSuffix (TrimSuffix baseURL "/") "/api")
             then TrimSuffix baseURL "/" ++ "/api"
             else TrimSuffix baseURL "/") = inl err ->
  NewClient newCatalogService baseURL ns httpClient tok = (None, Some err)
  /\ exists u e, err = url_Error "parse" u e.
Proof.
  intros Hparse. split.
  - apply NewClient_parse_failure. exact Hparse.
  - eapply Parse_error_is_url_Error. exact Hparse.
Qed.

Lemma NewClient_invalid_url_witness :
  NewClient (fun _ : Client unit => tt) "\foo:bar" EmptyString None EmptyString
  = (None, Some (url_Error "parse" "\foo:bar/api"
                   (errorString "first path segment in URL cannot contain colon"))).
Proof.
  refine (proj1 (NewClient_invalid_url (fun _ : Client unit => tt)
                   "\foo:bar" EmptyString None EmptyString _ _)).
  vm_compute. reflexivity.
Defined.

(** ** Request construction *)

(** The four header names the client sets are in canonical form. *)
Lemma Header_Set_canonical (h : http.Header) (key value : string) :
  textproto.CanonicalMIMEHeaderKey key = key ->
  http.Header_Set h key value = <[key := value :: nil]> h.
Proof. intros Hkey. unfold http.Header_Set. rewrite Hkey. reflexivity. Qed.

Lemma Header_Get_canonical (h : http.Header) (key value : string) (rest : list string) :
  textproto.CanonicalMIMEHeaderKey key = key ->
  h !! key = Some (value :: rest) ->
  http.Header_Get h key = value.
Proof. intros Hkey Hlook. unfold http.Header_Get. rewrite Hkey, Hlook. reflexivity. Qed.

Section NewRequestProperties.

Context {catalogService T : Type} `{json.Marshaler T}.


Lemma newRequest_success (c : Client catalogService) (method urlStr : string)
    (body : option T) (req : http.Request) :
  fst (newRequest c method urlStr body) = Some req ->
  exists (u : url.URL) (u' : url.URL),
    url.Parse urlStr = inr u
    /\ url.Parse (resolvedURL c u) = inr u'
    /\ http.URL req = http.withHost u' (http.removeEmptyPort (url.Host u'))
    /\ http.Method req = (if isEmpty method then "GET" else method)
    /\ http.Body req = match body with
                       | Some b => match json.Encode b with
                                   | inr buf => Some buf
                                   | inl _ => None
                                   end
                       | None => None
                       end
    /\ (forall b, body = Some b -> exists buf, json.Encode b = inr buf)
    /\ http.Header_ req = requestHeaders c body.
Proof.
  unfold newRequest.
  destruct (url.Parse urlStr) as [err | u]; [discriminate |].
  fold (resolvedURL c u).
  set (encoded := match body with
                  | Some b => _
                  | None => _
                  end).
  assert (Henc : forall buf, encoded = inr buf ->
            buf = match body with
                  | Some b => match json.Encode b with
                              | inr buf => Some buf
                              | inl _ => None
                              end
                  | None => None
                  end
            /\ forall b, body = Some b -> exists buf, json.Encode b = inr buf).
  { subst encoded. intros buf. destruct body as [b |].
    - destruct (json.Encode b) as [e | bytes] eqn:Eb; cbn; [discriminate |].
      intros [= <-]. split; [reflexivity |]. intros b' [= <-]. eauto.
    - intros [= <-]. split; [reflexivity | discriminate]. }
  destruct encoded as [err | buf]; [discriminate |].
  destruct (Henc buf eq_refl) as [Hbuf Hsome]. clear Henc.
  unfold http.NewRequest.
  destruct (negb (http.validMethod _)); [discriminate |].
  destruct (url.Parse (resolvedURL c u)) as [err | u'] eqn:Hparse; [discriminate |].
  cbn [bind fst]. intros [= <-].
  exists u, u'. split; [reflexivity |]. split; [exact Hparse |].
  unfold requestHeaders, contentTypeJSON.
  destruct body as [b |], (negb (isEmpty (UserAgent c))), (negb (isEmpty (token c)));
    cbn; rewrite ?Hbuf; repeat split; auto.
Qed.

End NewRequestProperties.

(** C4. A request built with a body carries the JSON encoding of the body
    followed by the newline the encoder ends each value with, and has
    [Content-Type] and [Accept] both [application/json]; a request built
    with a nil body has no [Content-Type] header and still has
    [Accept: application/json]. *)
Theorem newRequest_payload_and_content_headers {catalogService T : Type}
    `{json.Marshaler T} (c : Client catalogService) (method urlStr : string)
    (body : option T) (req : http.Request) :
  newRequest c method urlStr body = (Some req, None) ->
  match body with
  | Some b =>
      exists encoding : string,
        json.marshal b = inr encoding
        /\ http.Body req = Some (encoding ++ String "010" EmptyString)
        /\ http.Header_Get (http.Header_ req) "Content-Type" = "application/json"
        /\ http.Header_Get (http.Header_ req) "Accept" = "application/json"
  | None =>
      http.Body req = None
      /\ http.Header_ req !! "Content-Type" = None
      /\ http.Header_Get (http.Header_ req) "Accept" = "application/json"
  end.
Proof.
  intros Hnew.
  assert (Hfst : fst (newRequest c method urlStr body) = Some req) by (rewrite Hnew; reflexivity).
  destruct (newRequest_success _ _ _ _ _ Hfst)
    as (u & u' & _ & _ & _ & _ & Hbody & Henc & Hhdr).
  rewrite Hhdr, Hbody. unfold requestHeaders, contentTypeJSON.
  destruct body as [b |].
  - destruct (Henc b eq_refl) as [buf Hbuf]. rewrite Hbuf.
    unfold json.Encode in Hbuf.
    destruct (json.marshal b) as [e | encoding]; cbn in Hbuf; [discriminate |].
    injection Hbuf as <-. exists encoding.
    split; [reflexivity |]. split; [reflexivity |].
    split; (eapply Header_Get_canonical; [reflexivity |]);
      destruct (negb (isEmpty (UserAgent c))), (negb (isEmpty (token c)));
      simplify_map_eq; reflexivity.
  - split; [reflexivity |].
    split; [| eapply Header_Get_canonical; [reflexivity |]];
      destruct (negb (isEmpty (UserAgent c))), (negb (isEmpty (token c)));
      simplify_map_eq; reflexivity.
Qed.

(** C8. In a request built by [newRequest] the [User-Agent] header holds
    the client's user agent exactly when that is not empty, and the
    [Authorization] header holds ["Bearer "] followed by the token exactly
    when the token is not empty; otherwise the header is absent. *)
Theorem newRequest_user_agent_and_authorization {catalogService T : Type}
    `{json.Marshaler T} (c : Client catalogService) (method urlStr : string)
    (body : option T) (req : http.Request) :
  newRequest c method urlStr body = (Some req, None) ->
  http.Header_ req !! "User-Agent"
    = (if isEmpty (UserAgent c) then None else Some (UserAgent c :: nil))
  /\ http.Header_ req !! "Authorization"
    = (if isEmpty (token c) then None else Some (("Bearer " ++ token c)%string :: nil)).
Proof.
  intros Hnew.
  assert (Hfst : fst (newRequest c method urlStr body) = Some req) by (rewrite Hnew; reflexivity).
  destruct (newRequest_success _ _ _ _ _ Hfst)
    as (u & u' & _ & _ & _ & _ & _ & _ & Hhdr).
  rewrite Hhdr. unfold requestHeaders.
  destruct body as [b |], (isEmpty (UserAgent c)), (isEmpty (token c));
    cbn [negb]; split; simplify_map_eq; reflexivity.
Qed.

(** The steps [newRequest] takes for the URL. It fails with the
    [*url.Error] of [url.Parse] when the path does not parse. Otherwise
    the URL of a request it builds is read from this text: with a base
    URL, the reference whose [Path] field holds the result string of
    [url.JoinPath] on the two decoded paths (empty when the join fails),
    resolved against the base URL; without one, the parsed path. *)
Theorem newRequest_url {catalogService T : Type} `{json.Marshaler T}
    (c : Client catalogService) (method urlStr : string) (body : option T) :
  (forall err : error,
      url.Parse urlStr = inl err ->
      newRequest c method urlStr body = (None, Some err)
      /\ exists u e, err = url_Error "parse" u e)
  /\ (forall (u : url.URL) (req : http.Request),
         url.Parse urlStr = inr u ->
         newRequest c method urlStr body = (Some req, None) ->
         exists u' : url.URL,
           url.Parse
             (match BaseURL c with
              | Some base =>
                  url.String_
                    (url.ResolveReference base
                       (url.assignPath u
                          (fst (url.JoinPath (url.Path base) (url.Path u :: nil)))))
              | None => url.String_ u
              end) = inr u'
           /\ http.URL req = http.withHost u' (http.removeEmptyPort (url.Host u'))).
Proof.
  split.
  - intros err Hparse. split.
    + unfold newRequest. rewrite Hparse. reflexivity.
    + eapply Parse_error_is_url_Error. exact Hparse.
  - intros u req Hparse Hnew.
    assert (Hfst : fst (newRequest c method urlStr body) = Some req) by (rewrite Hnew; reflexivity).
    destruct (newRequest_success _ _ _ _ _ Hfst)
      as (u0 & u' & Hu0 & Hres & Hurl & _).
    rewrite Hparse in Hu0. injection Hu0 as <-.
    exists u'. split; [exact Hres | exact Hurl].
Qed.


Lemma newRequest_payload_and_content_headers_witness :
  exists req : http.Request,
    newRequest bareClient "POST" "http://localhost:7007/api/catalog/entities" (Some true)
      = (Some req, None)
    /\ exists encoding : string,
        json.marshal true = inr encoding
        /\ http.Body req = Some (encoding ++ String "010" EmptyString)
        /\ http.Header_Get (http.Header_ req) "Content-Type" = "application/json"
        /\ http.Header_Get (http.Header_ req) "Accept" = "application/json".
Proof.
  eexists. split.
  - vm_compute. reflexivity.
  - refine (newRequest_payload_and_content_headers bareClient "POST"
              "http://localhost:7007/api/catalog/entities" (Some true) _ _).
    vm_compute. reflexivity.
Defined.

Lemma newRequest_user_agent_and_authorization_witness :
  exists req : http.Request,
    newRequest sampleClient "GET" "/catalog/entities" (@None bool) = (Some req, None)
    /\ http.Header_ req !! "User-Agent" = Some ("go-backstage" :: nil)
    /\ http.Header_ req !! "Authorization" = Some ("Bearer secret" :: nil).
Proof.
  eexists. split.
  - vm_compute. reflexivity.
  - refine (newRequest_user_agent_and_authorization sampleClient "GET"
              "/catalog/entities" (@None bool) _ _).
    vm_compute. reflexivity.
Defined.

Lemma newRequest_url_witness :
  exists (u : url.URL) (req : http.Request) (u' : url.URL),
    url.Parse "/catalog/entities" = inr u
    /\ newRequest sampleClient "GET" "/catalog/entities" (@None bool) = (Some req, None)
    /\ http.URL req = http.withHost u' (http.removeEmptyPort (url.Host u'))
    /\ url.String_ (http.URL req) = "http://localhost:7007/api/catalog/entities".
Proof.
  eexists. eexists.
  assert (Hparse : url.Parse "/catalog/entities"
                   = inr (url.mkURL EmptyString EmptyString None EmptyString
                            "/catalog/entities" EmptyString false false
                            EmptyString EmptyString EmptyString))
    by (vm_compute; reflexivity).
  destruct (proj2 (newRequest_url sampleClient "GET" "/catalog/entities" (@None bool))
              _ _ Hparse ltac:(vm_compute; reflexivity)) as [u' [_ Hurl]].
  exists u'. split; [exact Hparse |]. split; [vm_compute; reflexivity |].
  split; [exact Hurl |]. vm_compute. reflexivity.
Defined.

(** C5. [newRequest] does not always build the join of the base path and
    the target path resolved against the base URL. That join is what
    [url.JoinPath] gives on the text of the base URL and the target, the
    reference that [TestNewRequest_Get] compares with. For the target
    [/catalog/entities] the request URL is that join. For the target
    [/a b] the join is [.../api/a%20b] and the request goes to
    [.../api/a%2520b]: the escaped result of [url.JoinPath] is stored in
    the [Path] field, which holds decoded text, and is escaped once more.
    For a base URL whose decoded path holds a percent sign the error of
    [url.JoinPath] is dropped and the target path is lost. *)
Theorem newRequest_url_is_not_the_join :
  (exists (base : url.URL) (req : http.Request),
      BaseURL sampleClient = Some base
      /\ newRequest sampleClient "GET" "/catalog/entities" (@None bool) = (Some req, None)
      /\ url.JoinPath (url.String_ base) ("/catalog/entities" :: nil)
         = (url.String_ (http.URL req), None))
  /\ (exists (base : url.URL) (req : http.Request),
        BaseURL sampleClient = Some base
        /\ newRequest sampleClient "GET" "/a b" (@None bool) = (Some req, None)
        /\ url.String_ (http.URL req) = "http://localhost:7007/api/a%2520b"
        /\ url.JoinPath (url.String_ base) ("/a b" :: nil)
           = ("http://localhost:7007/api/a%20b", None))
  /\ (exists (c : Client unit) (base : url.URL) (req : http.Request),
        NewClient (fun _ => tt) "http://localhost:7007/100%25" EmptyString None EmptyString
          = (Some c, None)
        /\ BaseURL c = Some base
        /\ newRequest c "GET" "/catalog/entities" (@None bool) = (Some req, None)
        /\ url.String_ (http.URL req) = "http://localhost:7007/100%25/api"
        /\ url.JoinPath (url.String_ base) ("/catalog/entities" :: nil)
           = ("http://localhost:7007/100%25/api/catalog/entities", None)).
Proof.
  split; [| split].
  - eexists. eexists. split; [vm_compute; reflexivity |].
    split; [vm_compute; reflexivity |]. vm_compute. reflexivity.
  - eexists. eexists. split; [vm_compute; reflexivity |].
    split; [vm_compute; reflexivity |].
    split; [vm_compute; reflexivity |]. vm_compute. reflexivity.
  - eexists. eexists. eexists. split; [vm_compute; reflexivity |].
    split; [vm_compute; reflexivity |].
    split; [vm_compute; reflexivity |].
    split; [vm_compute; reflexivity |]. vm_compute. reflexivity.
Qed.

(** ** The scanner and the stream decoder *)


Ltac scanner_cases :=
  repeat match goal with
         | |- context [if ?b then _ else _] => destruct b
         | |- context [match ?l with nil => _ | _ :: _ => _ end] => destruct l
         | |- context [match ?k with
                       | json.parseObjectKey => _
                       | json.parseObjectValue => _
                       | json.parseArrayValue => _
                       end] => destruct k
         end; cbn; auto.

Lemma stateEndValue_syntaxErrorsOnly (s : json.scanner) (c : ascii) :
  syntaxErrorsOnly s -> syntaxErrorsOnly (fst (json.stateEndValue s c)).
Proof.
  destruct s as [st et ps e]. unfold syntaxErrorsOnly. cbn. intros He.
  unfold json.stateEndValue, json.stateEndTop, json.error_, json.setStep,
    json.setTop, json.popParseState; cbn.
  scanner_cases.
Qed.

Lemma apply_syntaxErrorsOnly (s : json.scanner) (c : ascii) :
  syntaxErrorsOnly s -> syntaxErrorsOnly (fst (json.apply s c)).
Proof.
  intros He.
  assert (Hend := stateEndValue_syntaxErrorsOnly).
  unfold json.apply.
  destruct (json.step s) eqn:Hstep;
    unfold json.stateBeginValueOrEmpty, json.stateBeginStringOrEmpty,
      json.stateBeginValue, json.stateBeginString, json.stateInString,
      json.stateInStringEsc, json.stateInStringEscHex, json.state1, json.state0,
      json.stateNeg, json.stateDot, json.stateDot0, json.stateE, json.stateESign,
      json.stateE0, json.stateLiteral, json.pushParseState;
    repeat match goal with
           | |- context [json.stateEndValue ?s' ?c'] => apply Hend
           | |- context [if ?b then _ else _] => destruct b
           end;
    try (destruct s as [st et ps e]; unfold syntaxErrorsOnly in *; cbn in *;
         unfold json.stateEndTop, json.error_; scanner_cases; fail).
Qed.

Lemma scanErr_not_EOF (s : json.scanner) :
  syntaxErrorsOnly s -> json.scanErr s <> io_EOF.
Proof.
  unfold syntaxErrorsOnly, json.scanErr.
  destruct (json.err s) as [[] |]; intros He; try discriminate; contradiction.
Qed.

(** The scan reports [io.EOF] only at the end of an input of spaces. *)
Lemma readValue_loop_EOF (whole buf : string) :
  forall (s : json.scanner) (scanp : nat),
    syntaxErrorsOnly s ->
    json.readValue_loop whole s buf scanp = inl io_EOF ->
    json.nonSpace whole = false.
Proof.
  induction buf as [| c buf IH]; intros s scanp Hs; cbn.
  - destruct (json.isEnd _); [discriminate |].
    destruct (json.nonSpace whole); [discriminate | reflexivity].
  - pose proof (apply_syntaxErrorsOnly s c Hs) as Hs1.
    destruct (json.apply s c) as [s1 code]. cbn in Hs1.
    pose proof (stateEndValue_syntaxErrorsOnly s1 " " Hs1) as Hs2.
    destruct (json.stateEndValue s1 " ") as [s2 code2]. cbn in Hs2.
    destruct code; try (apply IH; assumption); try discriminate.
    + destruct (json.isEnd code2); [discriminate | apply IH; assumption].
    + destruct (json.isEnd code2); [discriminate | apply IH; assumption].
    + intros [= Herr]. exfalso. exact (scanErr_not_EOF s1 Hs1 Herr).
Qed.

Lemma readValue_loop_spaces (whole buf : string) :
  forall scanp : nat,
    all json.isSpace buf = true ->
    json.nonSpace whole = false ->
    json.readValue_loop whole json.reset buf scanp = inl io_EOF.
Proof.
  induction buf as [| c buf IH]; intros scanp Hbuf Hwhole; cbn.
  - rewrite Hwhole. reflexivity.
  - cbn in Hbuf. apply andb_prop in Hbuf as [Hc Hbuf].
    unfold json.apply, json.stateBeginValue. cbn. rewrite Hc.
    apply IH; assumption.
Qed.

(** [readValue] answers [io.EOF] exactly on the inputs that hold nothing
    but JSON white space: space, tab, carriage return, line feed. *)
Lemma readValue_EOF_iff (body : string) :
  json.readValue body = inl io_EOF <-> all json.isSpace body = true.
Proof.
  unfold json.readValue. split.
  - intros Hread. apply readValue_loop_EOF in Hread; [| exact I].
    unfold json.nonSpace in Hread. destruct (all json.isSpace body); [reflexivity | discriminate].
  - intros Hall. apply readValue_loop_spaces; [exact Hall |].
    unfold json.nonSpace. rewrite Hall. reflexivity.
Qed.

(** [Decode] on a body of white space: [io.EOF], the destination as it was. *)
Lemma Decode_blank {T : Type} `{json.Unmarshaler T} (body : string) (v : option T) :
  all json.isSpace body = true -> json.Decode body v = (v, Some io_EOF).
Proof.
  intros Hall. unfold json.Decode.
  rewrite (proj2 (readValue_EOF_iff body) Hall). reflexivity.
Qed.

(** ** Request execution *)


Section DoProperties.

Context {catalogService T : Type} `{json.Unmarshaler T}.
Variable http_Client_Do : http.Client -> http.Request -> result error http.Response.

Lemma do_transport_failure (c : Client catalogService) (httpClient : http.Client)
    (ctx : context.Context) (req : http.Request) (v : option T) (err : error) :
  client c = Some httpClient ->
  http_Client_Do httpClient (http.WithContext req ctx) = inl err ->
  do http_Client_Do c ctx req v = Returns (None, Some err, v).
Proof. intros Hc Hdo. unfold do. rewrite Hc, Hdo. reflexivity. Qed.

Lemma do_transport_success (c : Client catalogService) (httpClient : http.Client)
    (ctx : context.Context) (req : http.Request) (v : option T) (resp : http.Response) :
  client c = Some httpClient ->
  http_Client_Do httpClient (http.WithContext req ctx) = inr resp ->
  do http_Client_Do c ctx req v
  = Returns (Some (closeBody resp),
             (let decErr := snd (json.Decode (http.content (http.RespBody resp)) v) in
              if isEOF decErr then None else decErr),
             fst (json.Decode (http.content (http.RespBody resp)) v)).
Proof.
  intros Hc Hdo. unfold do. rewrite Hc, Hdo.
  destruct (json.Decode _ v) as [v' decErr]. reflexivity.
Qed.

End DoProperties.

(** C3. When the response has status 200 and an empty body, [do] returns
    no error and the destination is left as it was. *)
Theorem do_empty_body {catalogService T : Type} `{json.Unmarshaler T}
    (http_Client_Do : http.Client -> http.Request -> result error http.Response)
    (c : Client catalogService) (httpClient : http.Client)
    (ctx : context.Context) (req : http.Request) (v : option T) (resp : http.Response) :
  client c = Some httpClient ->
  http_Client_Do httpClient (http.WithContext req ctx) = inr resp ->
  http.StatusCode resp = 200%Z ->
  http.content (http.RespBody resp) = EmptyString ->
  do http_Client_Do c ctx req v = Returns (Some (closeBody resp), None, v).
Proof.
  intros Hc Hdo _ Hbody.
  rewrite (do_transport_success _ _ _ _ _ _ _ Hc Hdo), Hbody.
  rewrite Decode_blank by reflexivity. reflexivity.
Qed.

Lemma do_empty_body_witness :
  do (stubServer 200 EmptyString) sampleClient context.Background sampleRequest (Some true)
  = Returns (Some (http.mkResponse 200 ∅ (http.mkReadCloser EmptyString true)), None, Some true).
Proof.
  refine (do_empty_body (stubServer 200 EmptyString) sampleClient http.zeroClient
            context.Background sampleRequest (Some true)
            (http.mkResponse 200 ∅ (http.mkReadCloser EmptyString false)) _ _ _ _);
    reflexivity.
Defined.

(** C9. When the transport call fails, [do] fails with the error of the
    transport. When it succeeds, [do] returns the response, never nil,
    with the status code and the headers the transport gave, together with
    the outcome of the decoding, whether the decoding failed or not. *)
Theorem do_returns_response_with_decode_outcome {catalogService T : Type}
    `{json.Unmarshaler T}
    (http_Client_Do : http.Client -> http.Request -> result error http.Response)
    (c : Client catalogService) (httpClient : http.Client)
    (ctx : context.Context) (req : http.Request) (v : option T) :
  client c = Some httpClient ->
  match http_Client_Do httpClient (http.WithContext req ctx) with
  | inl err => do http_Client_Do c ctx req v = Returns (None, Some err, v)
  | inr resp =>
      exists (r : http.Response) (decErr : option error) (v' : option T),
        do http_Client_Do c ctx req v = Returns (Some r, decErr, v')
        /\ http.StatusCode r = http.StatusCode resp
        /\ http.RespHeader r = http.RespHeader resp
        /\ v' = fst (json.Decode (http.content (http.RespBody resp)) v)
        /\ decErr = (let e := snd (json.Decode (http.content (http.RespBody resp)) v) in
                     if isEOF e then None else e)
  end.
Proof.
  intros Hc.
  destruct (http_Client_Do httpClient (http.WithContext req ctx)) as [err | resp] eqn:Hdo.
  - exact (do_transport_failure _ _ _ _ _ _ _ Hc Hdo).
  - eexists _, _, _. split; [exact (do_transport_success _ _ _ _ _ _ _ Hc Hdo) |].
    repeat split.
Qed.

Lemma do_returns_response_with_decode_outcome_witness :
  exists (r : http.Response) (decErr : option error) (v' : option bool),
    do (stubServer 404 "not found") sampleClient context.Background sampleRequest (Some false)
      = Returns (Some r, decErr, v')
    /\ http.StatusCode r = 404%Z
    /\ decErr <> None.
Proof.
  destruct (do_returns_response_with_decode_outcome (stubServer 404 "not found")
              sampleClient http.zeroClient context.Background sampleRequest
              (Some false) eq_refl)
    as (r & decErr & v' & Hdo & Hstatus & _ & _ & HdecErr).
  exists r, decErr, v'. split; [exact Hdo |]. split; [exact Hstatus |].
  rewrite HdecErr. vm_compute. discriminate.
Defined.

(** C10. When the transport call fails, [do] returns a nil response and
    the error, and the destination is left as it was. *)
Theorem do_transport_error_keeps_destination {catalogService T : Type}
    `{json.Unmarshaler T}
    (http_Client_Do : http.Client -> http.Request -> result error http.Response)
    (c : Client catalogService) (httpClient : http.Client)
    (ctx : context.Context) (req : http.Request) (v : option T) (err : error) :
  client c = Some httpClient ->
  http_Client_Do httpClient (http.WithContext req ctx) = inl err ->
  do http_Client_Do c ctx req v = Returns (None, Some err, v).
Proof. intros Hc Hdo. exact (do_transport_failure _ _ _ _ _ _ _ Hc Hdo). Qed.

Lemma do_transport_error_keeps_destination_witness :
  do unreachable sampleClient context.Background sampleRequest (Some true)
  = Returns (None,
             Some (url_Error "Get" "http://localhost/foo/bar"
                     (errorString "dial tcp: connect: connection refused")),
             Some true).
Proof.
  refine (do_transport_error_keeps_destination unreachable sampleClient http.zeroClient
            context.Background sampleRequest (Some true) _ _ _); reflexivity.
Defined.

(** The three ways in which [do] departs from returning a decode error
    exactly for a non-empty body that is not valid JSON for the
    destination, and none without a destination:
    - with no destination, the body [true] gives an
      [InvalidUnmarshalError];
    - a body of one space, which is no JSON text, gives no error;
    - the body [true x], which is no JSON text either, gives no error: its
      first value is decoded and the rest is not read. *)
Lemma do_decode_error_counterexample :
  do (stubServer 200 "true") sampleClient context.Background sampleRequest (@None bool)
  = Returns (Some (http.mkResponse 200 ∅ (http.mkReadCloser "true" true)),
             Some json_InvalidUnmarshalError, None)
  /\ do (stubServer 200 " ") sampleClient context.Background sampleRequest (Some false)
     = Returns (Some (http.mkResponse 200 ∅ (http.mkReadCloser " " true)),
                None, Some false)
  /\ do (stubServer 200 "true x") sampleClient context.Background sampleRequest (Some false)
     = Returns (Some (http.mkResponse 200 ∅ (http.mkReadCloser "true x" true)),
                None, Some true).
Proof. repeat split. Qed.

Lemma readValue_value_not_blank (body : string) (n : nat) :
  json.readValue body = inr n -> json.nonSpace body = true.
Proof.
  intros Hread. unfold json.nonSpace.
  destruct (all json.isSpace body) eqn:Hall; [| reflexivity].
  apply readValue_EOF_iff in Hall. congruence.
Qed.

Lemma readValue_error_not_blank (body : string) (e : error) :
  json.readValue body = inl e -> e <> io_EOF -> json.nonSpace body = true.
Proof.
  intros Hread Hne. unfold json.nonSpace.
  destruct (all json.isSpace body) eqn:Hall; [| reflexivity].
  apply readValue_EOF_iff in Hall. congruence.
Qed.

Lemma isEOF_false_iff (e : error) : isEOF (Some e) = false <-> e <> io_EOF.
Proof. destruct e; cbn; split; congruence. Qed.

(** C1, amended. When the transport call succeeds, [do] decodes the first
    JSON value of the body into the destination if there is one. A body
    that is empty, or holds white space only, is a successful decode that
    changes nothing. With a destination, an error is returned exactly when
    the body holds a byte that is not white space and does not start with
    a well-formed JSON value that the destination accepts. Without a
    destination, no error is returned exactly when the body is empty or
    white space only; a body that starts with a well-formed JSON value
    gives an [InvalidUnmarshalError]. *)
Theorem do_decode_outcome {catalogService T : Type} `{json.Unmarshaler T}
    (http_Client_Do : http.Client -> http.Request -> result error http.Response)
    (c : Client catalogService) (httpClient : http.Client)
    (ctx : context.Context) (req : http.Request) (v : option T) (resp : http.Response) :
  client c = Some httpClient ->
  http_Client_Do httpClient (http.WithContext req ctx) = inr resp ->
  exists (decErr : option error) (v' : option T),
    do http_Client_Do c ctx req v = Returns (Some (closeBody resp), decErr, v')
    /\ (http.content (http.RespBody resp) = EmptyString -> decErr = None /\ v' = v)
    /\ (all json.isSpace (http.content (http.RespBody resp)) = true ->
        decErr = None /\ v' = v)
    /\ (forall x : T, v = Some x ->
        (decErr <> None <->
         json.nonSpace (http.content (http.RespBody resp)) = true
         /\ ~ accepted (http.content (http.RespBody resp)) x)
        /\ forall n : nat,
            json.readValue (http.content (http.RespBody resp)) = inr n ->
            v' = Some (fst (json.value (take n (http.content (http.RespBody resp))) x)))
    /\ (v = None ->
        (decErr = None <-> all json.isSpace (http.content (http.RespBody resp)) = true)
        /\ forall n : nat,
            json.readValue (http.content (http.RespBody resp)) = inr n ->
            decErr = Some json_InvalidUnmarshalError).
Proof.
  intros Hc Hdo. set (body := http.content (http.RespBody resp)).
  eexists _, _. split; [exact (do_transport_success _ _ _ _ _ _ _ Hc Hdo) |].
  fold body.
  assert (Hblank : all json.isSpace body = true ->
            (let decErr := snd (json.Decode body v) in if isEOF decErr then None else decErr)
            = None /\ fst (json.Decode body v) = v).
  { intros Hall. rewrite Decode_blank by exact Hall. split; reflexivity. }
  split; [intros Hempty; apply Hblank; rewrite Hempty; reflexivity |].
  split; [exact Hblank |]. clear Hblank.
  split.
  - intros x ->. unfold json.Decode, json.unmarshal, accepted.
    destruct (json.readValue body) as [e | n] eqn:Hread.
    + split; [| discriminate]. cbn [snd fst].
      destruct (isEOF (Some e)) eqn:Heof.
      * split; [congruence |]. intros [Hns _]. exfalso.
        destruct e; try discriminate.
        apply readValue_EOF_iff in Hread. unfold json.nonSpace in Hns.
        rewrite Hread in Hns. discriminate.
      * split; [| discriminate]. intros _. split.
        -- eapply readValue_error_not_blank; [exact Hread |].
           apply isEOF_false_iff. exact Heof.
        -- intros (n & Hn & _). discriminate.
    + destruct (json.value (take n body) x) as [x' e] eqn:Hval. cbn [snd fst].
      split.
      * split.
        -- intros Herr. split; [eapply readValue_value_not_blank; exact Hread |].
           intros (m & Hm & Hacc). injection Hm as <-. rewrite Hval in Hacc. cbn in Hacc.
           destruct Hacc as [-> | ->]; apply Herr; reflexivity.
        -- intros [_ Hnacc]. intros Herr. apply Hnacc. exists n.
           split; [reflexivity |]. rewrite Hval. cbn.
           destruct e as [e |]; [| left; reflexivity].
           destruct e; cbn in Herr; try discriminate. right. reflexivity.
      * intros m [= <-]. rewrite Hval. reflexivity.
  - intros ->. unfold json.Decode, json.unmarshal.
    destruct (json.readValue body) as [e | n] eqn:Hread; cbn [snd fst].
    + split; [| discriminate].
      rewrite <- readValue_EOF_iff, Hread.
      destruct e; cbn; split; congruence.
    + split; [| reflexivity]. cbn.
      split; [discriminate |]. intros Hall.
      apply readValue_EOF_iff in Hall. congruence.
Qed.

Lemma do_decode_outcome_witness :
  exists (decErr : option error) (v' : option bool),
    do (stubServer 200 "[1,") sampleClient context.Background sampleRequest (Some false)
      = Returns (Some (http.mkResponse 200 ∅ (http.mkReadCloser "[1," true)), decErr, v')
    /\ decErr <> None.
Proof.
  destruct (do_decode_outcome (stubServer 200 "[1,") sampleClient http.zeroClient
              context.Background sampleRequest (Some false)
              (http.mkResponse 200 ∅ (http.mkReadCloser "[1," false)) eq_refl eq_refl)
    as (decErr & v' & Hdo & _ & _ & Hdest & _).
  exists decErr, v'. split; [exact Hdo |].
  apply (proj1 (Hdest false eq_refl)). split; [reflexivity |].
  intros (n & Hn & _). vm_compute in Hn. discriminate.
Defined.

(** ** Strings: prefixes, suffixes and slices *)


Lemma append_String (c : ascii) (s t : string) : String c s ++ t = String c (s ++ t).
Proof. reflexivity. Qed.

Lemma append_Empty_l (t : string) : EmptyString ++ t = t.
Proof. reflexivity. Qed.

Lemma append_Empty_r (s : string) : s ++ EmptyString = s.
Proof. induction s as [| c s IH]; [reflexivity |]. rewrite append_String, IH. reflexivity. Qed.

Lemma append_assoc (s t r : string) : (s ++ t) ++ r = s ++ (t ++ r).
Proof.
  induction s as [| c s IH]; [reflexivity |].
  rewrite !append_String, IH. reflexivity.
Qed.

Lemma length_append (s t : string) :
  String.length (s ++ t) = String.length s + String.length t.
Proof.
  induction s as [| c s IH]; [reflexivity |].
  rewrite append_String. cbn. rewrite IH. reflexivity.
Qed.

Lemma take_drop (n : nat) (s : string) : take n s ++ drop n s = s.
Proof.
  revert s. induction n as [| n IH]; intros [| c s]; try reflexivity.
  cbn. rewrite append_String, IH. reflexivity.
Qed.

Lemma drop_append_le (n : nat) (p t : string) :
  n <= String.length p -> drop n (p ++ t) = drop n p ++ t.
Proof.
  revert p. induction n as [| n IH]; intros p Hn.
  - destruct p; reflexivity.
  - destruct p as [| c p]; cbn in Hn; [lia |].
    rewrite append_String. cbn. apply IH. lia.
Qed.

Lemma take_append_le (n : nat) (p t : string) :
  n <= String.length p -> take n (p ++ t) = take n p.
Proof.
  revert p. induction n as [| n IH]; intros p Hn.
  - destruct p; reflexivity.
  - destruct p as [| c p]; cbn in Hn; [lia |].
    rewrite append_String. cbn. rewrite IH by lia. reflexivity.
Qed.

Lemma drop_all (s : string) : drop (String.length s) s = EmptyString.
Proof. induction s as [| c s IH]; [reflexivity | exact IH]. Qed.

Lemma take_all (s : string) : take (String.length s) s = s.
Proof. induction s as [| c s IH]; [reflexivity |]. cbn. rewrite IH. reflexivity. Qed.

Lemma drop_length_append (p t : string) : drop (String.length p) (p ++ t) = t.
Proof. rewrite drop_append_le by lia. rewrite drop_all. reflexivity. Qed.

Lemma take_length_append (p t : string) : take (String.length p) (p ++ t) = p.
Proof. rewrite take_append_le by lia. apply take_all. Qed.

Lemma length_take_le (n : nat) (s : string) :
  n <= String.length s -> String.length (take n s) = n.
Proof.
  revert s. induction n as [| n IH]; intros [| c s] Hn; cbn in *; try lia.
  rewrite IH by lia. reflexivity.
Qed.

Lemma HasSuffix_true_iff (s suffix : string) :
  HasSuffix s suffix = true <-> EndsWith s suffix.
Proof.
  unfold HasSuffix, EndsWith. split.
  - intros Hs. apply andb_prop in Hs as [Hlen Heq].
    apply String.eqb_eq in Heq.
    exists (take (String.length s - String.length suffix) s).
    rewrite <- Heq at 2. symmetry. apply take_drop.
  - intros [p ->]. rewrite length_append.
    replace (String.length p + String.length suffix - String.length suffix)
      with (String.length p) by lia.
    rewrite drop_length_append, String.eqb_refl, andb_true_r.
    apply Nat.leb_le. lia.
Qed.

Lemma HasPrefix_true_iff (s prefix : string) :
  HasPrefix s prefix = true <-> exists t : string, s = prefix ++ t.
Proof.
  unfold HasPrefix. split.
  - intros Hs. apply andb_prop in Hs as [Hlen Heq].
    apply String.eqb_eq in Heq.
    exists (drop (String.length prefix) s).
    rewrite <- Heq at 1. symmetry. apply take_drop.
  - intros [t ->]. rewrite length_append, take_length_append, String.eqb_refl, andb_true_r.
    apply Nat.leb_le. lia.
Qed.

Lemma EndsWith_append_l (x y suffix : string) :
  EndsWith y suffix -> EndsWith (x ++ y) suffix.
Proof. intros [p ->]. exists (x ++ p). symmetry. apply append_assoc. Qed.

Lemma EndsWith_refl (s : string) : EndsWith s s.
Proof. exists EmptyString. reflexivity. Qed.

Lemma EndsWith_nonempty (s suffix : string) :
  EndsWith s suffix -> suffix <> EmptyString -> isEmpty s = false.
Proof.
  intros [p ->] Hne. destruct p as [| c p]; [| reflexivity].
  rewrite append_Empty_l. destruct suffix; [congruence | reflexivity].
Qed.


Lemma lastByte_append (p t : string) :
  t <> EmptyString -> lastByte (p ++ t) = lastByte t.
Proof.
  intros Ht. induction p as [| c p IH]; [reflexivity |].
  rewrite append_String. cbn. rewrite IH.
  destruct (p ++ t) eqn:Hpt; [| reflexivity].
  destruct p; [rewrite append_Empty_l in Hpt; congruence | discriminate].
Qed.

Lemma EndsWith_lastByte (s suffix : string) :
  EndsWith s suffix -> suffix <> EmptyString -> lastByte s = lastByte suffix.
Proof. intros [p ->] Hne. apply lastByte_append. exact Hne. Qed.

(** Two suffixes with different last bytes exclude each other. *)
Lemma HasSuffix_other (s t1 t2 : string) :
  EndsWith s t1 -> t1 <> EmptyString -> t2 <> EmptyString ->
  lastByte t1 <> lastByte t2 -> HasSuffix s t2 = false.
Proof.
  intros H1 Hne1 Hne2 Hlast.
  destruct (HasSuffix s t2) eqn:H2; [| reflexivity].
  apply HasSuffix_true_iff in H2.
  rewrite <- (EndsWith_lastByte s t1 H1 Hne1), <- (EndsWith_lastByte s t2 H2 Hne2) in Hlast.
  congruence.
Qed.

Lemma IndexByte_lt (s : string) (c : ascii) (i : nat) :
  IndexByte s c = Some i -> i < String.length s.
Proof.
  revert i. induction s as [| a s IH]; intros i; cbn; [discriminate |].
  destruct (Ascii.eqb a c).
  - intros [= <-]. lia.
  - destruct (IndexByte s c) as [j |]; [| discriminate].
    intros [= <-]. specialize (IH j eq_refl). lia.
Qed.

Lemma IndexByte_append_absent (p t : string) (c : ascii) :
  Contains t c = false -> IndexByte (p ++ t) c = IndexByte p c.
Proof.
  unfold Contains. intros Ht.
  induction p as [| a p IH].
  - rewrite append_Empty_l. destruct (IndexByte t c); [discriminate | reflexivity].
  - rewrite append_String. cbn. rewrite IH. reflexivity.
Qed.

Lemma IndexByte_append_present (p t : string) (c : ascii) :
  HasPrefix t (String c EmptyString) = true ->
  exists i : nat, IndexByte (p ++ t) c = Some i /\ i <= String.length p.
Proof.
  intros Ht. apply HasPrefix_true_iff in Ht as [t' ->].
  induction p as [| a p (i & Hi & Hle)].
  - exists 0. rewrite append_Empty_l, append_String. cbn.
    rewrite Ascii.eqb_refl. split; [reflexivity | lia].
  - rewrite append_String. cbn. destruct (Ascii.eqb a c).
    + exists 0. split; [reflexivity | lia].
    + rewrite Hi. exists (S i). split; [reflexivity | lia].
Qed.

(** [Cut] on a separator that the suffix [t] does not hold: the text after
    the separator, when there is one, still ends with [t]. *)
Lemma Cut_suffix (p t : string) (c : ascii) (before after : string) (found : bool) :
  Contains t c = false ->
  Cut (p ++ t) c = (before, after, found) ->
  if found then EndsWith after t
  else before = p ++ t /\ after = EmptyString.
Proof.
  intros Ht. unfold Cut. rewrite (IndexByte_append_absent p t c Ht).
  destruct (IndexByte p c) as [i |] eqn:Hi.
  - intros Hcut. apply IndexByte_lt in Hi.
    assert (Hafter : after = drop (S i) (p ++ t)) by congruence.
    assert (Hfound : found = true) by congruence.
    subst after found.
    rewrite drop_append_le by lia. eexists. reflexivity.
  - intros [= <- <- <-]. split; reflexivity.
Qed.

(** ** URLs that end with the API path segment *)

Lemma EndsWith_String (c : ascii) (s suffix : string) :
  EndsWith s suffix -> EndsWith (String c s) suffix.
Proof. intros [p ->]. exists (String c p). reflexivity. Qed.

Lemma escape_append (p t : string) (mode : url.encoding) :
  url.escape (p ++ t) mode = url.escape p mode ++ url.escape t mode.
Proof.
  induction p as [| c p IH]; [reflexivity |].
  rewrite append_String. cbn [url.escape]. rewrite IH, append_assoc. reflexivity.
Qed.

Lemma escape_api_suffix (s : string) (mode : url.encoding) :
  mode = url.encodePath \/ mode = url.encodeFragment ->
  EndsWith s "/api" -> EndsWith (url.escape s mode) "/api".
Proof.
  intros Hmode [p ->]. rewrite escape_append. apply EndsWith_append_l.
  destruct Hmode as [-> | ->]; apply EndsWith_refl.
Qed.

(** An escape cannot reach into the suffix: the byte after a percent sign
    would be the slash, which is no hexadecimal digit. *)
Lemma unescape_copy_api_suffix (mode : url.encoding) (n : nat) :
  forall p : string,
    String.length p <= n ->
    url.unescape_check (p ++ "/api") mode = None ->
    EndsWith (url.unescape_copy (p ++ "/api") mode) "/api".
Proof.
  induction n as [| n IH]; intros p Hlen Hcheck.
  - destruct p; [| cbn in Hlen; lia].
    rewrite append_Empty_l. destruct mode; apply EndsWith_refl.
  - destruct p as [| c p1].
    { rewrite append_Empty_l. destruct mode; apply EndsWith_refl. }
    rewrite append_String in *. cbn [url.unescape_check url.unescape_copy] in *.
    cbn in Hlen.
    destruct (Ascii.eqb c "%").
    + destruct p1 as [| h1 [| h2 p3]].
      * rewrite append_Empty_l in Hcheck. cbn in Hcheck. discriminate.
      * rewrite append_String, append_Empty_l in Hcheck.
        change ("/api") with (String "/" "api") in Hcheck.
        cbn match in Hcheck.
        replace (url.ishex "/") with false in Hcheck by reflexivity.
        rewrite orb_true_r in Hcheck. discriminate.
      * rewrite !append_String in *. cbn match in *.
        apply EndsWith_String. apply IH; [cbn in Hlen; lia |].
        repeat match type of Hcheck with
               | (if ?b then _ else _) = None => destruct b; [discriminate |]
               end.
        exact Hcheck.
    + assert (Hrest : url.unescape_check (p1 ++ "/api") mode = None).
      { match type of Hcheck with
        | (if ?b then _ else _) = None => destruct b; [discriminate | exact Hcheck]
        end. }
      clear Hcheck.
      destruct (Ascii.eqb c "+" && _); apply EndsWith_String; apply IH; (lia || exact Hrest).
Qed.

Lemma unescape_api_suffix (s r : string) (mode : url.encoding) :
  EndsWith s "/api" -> url.unescape s mode = inr r -> EndsWith r "/api".
Proof.
  intros [p ->]. unfold url.unescape.
  destruct (url.unescape_check (p ++ "/api") mode) eqn:Hcheck; [discriminate |].
  intros [= <-]. eapply unescape_copy_api_suffix; [reflexivity | exact Hcheck].
Qed.

Lemma setPath_api_suffix (p path rawPath : string) :
  EndsWith p "/api" ->
  url.setPath p = inr (path, rawPath) ->
  EndsWith path "/api" /\ (rawPath = EmptyString \/ rawPath = p).
Proof.
  intros Hp. unfold url.setPath.
  destruct (url.unescape p url.encodePath) as [e | path0] eqn:Hun; [discriminate |].
  cbn [bind]. apply (unescape_api_suffix _ _ _ Hp) in Hun.
  destruct (String.eqb p _); intros [= <- <-]; auto.
Qed.

Lemma setFragment_api_suffix (f frag rawFragment : string) :
  EndsWith f "/api" ->
  url.setFragment f = inr (frag, rawFragment) ->
  EndsWith frag "/api" /\ (rawFragment = EmptyString \/ rawFragment = f).
Proof.
  intros Hf. unfold url.setFragment.
  destruct (url.unescape f url.encodeFragment) as [e | frag0] eqn:Hun; [discriminate |].
  cbn [bind]. apply (unescape_api_suffix _ _ _ Hf) in Hun.
  destruct (String.eqb f _); intros [= <- <-]; auto.
Qed.

Lemma api_not_star (s : string) : EndsWith s "/api" -> String.eqb s "*" = false.
Proof.
  intros Hs. destruct (String.eqb s "*") eqn:Heq; [| reflexivity].
  apply String.eqb_eq in Heq. subst s.
  apply EndsWith_lastByte in Hs; [discriminate | discriminate].
Qed.

Lemma EscapedPath_api_suffix (u : url.URL) :
  EndsWith (url.Path u) "/api" ->
  url.RawPath u = EmptyString \/ EndsWith (url.RawPath u) "/api" ->
  EndsWith (url.EscapedPath u) "/api".
Proof.
  intros Hpath Hraw. unfold url.EscapedPath.
  destruct (negb (isEmpty (url.RawPath u))) eqn:Hne; cbn [andb].
  - destruct Hraw as [Hraw | Hraw]; [rewrite Hraw in Hne; discriminate |].
    destruct (_ && _); [exact Hraw |].
    rewrite (api_not_star _ Hpath). apply escape_api_suffix; auto.
  - rewrite (api_not_star _ Hpath). apply escape_api_suffix; auto.
Qed.

Lemma EscapedFragment_api_suffix (u : url.URL) :
  EndsWith (url.Fragment u) "/api" ->
  url.RawFragment u = EmptyString \/ EndsWith (url.RawFragment u) "/api" ->
  EndsWith (url.EscapedFragment u) "/api".
Proof.
  intros Hfrag Hraw. unfold url.EscapedFragment.
  destruct (negb (isEmpty (url.RawFragment u))) eqn:Hne; cbn [andb].
  - destruct Hraw as [Hraw | Hraw]; [rewrite Hraw in Hne; discriminate |].
    destruct (_ && _); [exact Hraw |].
    apply escape_api_suffix; auto.
  - apply escape_api_suffix; auto.
Qed.

Lemma api_nonempty : "/api" <> EmptyString.
Proof. discriminate. Qed.

(** The last part that [String] writes decides how the text ends. *)
Lemma String_fragment_suffix (u : url.URL) :
  EndsWith (url.Fragment u) "/api" ->
  url.RawFragment u = EmptyString \/ EndsWith (url.RawFragment u) "/api" ->
  EndsWith (url.String_ u) "/api".
Proof.
  intros Hfrag Hraw. unfold url.String_.
  rewrite (EndsWith_nonempty _ _ Hfrag api_nonempty). cbn [negb].
  do 3 apply EndsWith_append_l. apply EscapedFragment_api_suffix; assumption.
Qed.

Lemma String_query_suffix (u : url.URL) :
  url.Fragment u = EmptyString ->
  EndsWith (url.RawQuery u) "/api" ->
  EndsWith (url.String_ u) "/api".
Proof.
  intros Hfrag Hquery. unfold url.String_.
  rewrite Hfrag, (EndsWith_nonempty _ _ Hquery api_nonempty). cbn [isEmpty negb].
  rewrite orb_true_r, append_Empty_r.
  do 2 apply EndsWith_append_l. exact Hquery.
Qed.

Lemma String_opaque_suffix (u : url.URL) :
  url.Fragment u = EmptyString ->
  url.RawQuery u = EmptyString ->
  url.ForceQuery u = false ->
  EndsWith (url.Opaque u) "/api" ->
  EndsWith (url.String_ u) "/api".
Proof.
  intros Hfrag Hquery Hforce Hopaque. unfold url.String_.
  rewrite Hfrag, Hquery, Hforce, (EndsWith_nonempty _ _ Hopaque api_nonempty).
  cbn [isEmpty negb orb]. rewrite !append_Empty_r.
  apply EndsWith_append_l. exact Hopaque.
Qed.

Lemma String_path_suffix (u : url.URL) :
  url.Fragment u = EmptyString ->
  url.RawQuery u = EmptyString ->
  url.ForceQuery u = false ->
  url.Opaque u = EmptyString ->
  EndsWith (url.EscapedPath u) "/api" ->
  EndsWith (url.String_ u) "/api".
Proof.
  intros Hfrag Hquery Hforce Hopaque Hpath. unfold url.String_, url.String_path.
  rewrite Hfrag, Hquery, Hforce, Hopaque.
  cbn [isEmpty negb orb]. rewrite !append_Empty_r.
  apply EndsWith_append_l. exact Hpath.
Qed.

Lemma drop_S (i : nat) (raw : string) (c : ascii) (s : string) :
  drop i raw = String c s -> drop (S i) raw = s.
Proof.
  revert raw. induction i as [| i IH]; intros raw Hdrop.
  - destruct raw; cbn in Hdrop; [discriminate |]. injection Hdrop as _ <-. reflexivity.
  - destruct raw as [| a raw]; cbn in Hdrop; [discriminate |].
    exact (IH raw Hdrop).
Qed.

Lemma drop_append_ge (n : nat) (p t : string) :
  String.length p <= n -> drop n (p ++ t) = drop (n - String.length p) t.
Proof.
  revert n. induction p as [| c p IH]; intros n Hn.
  - rewrite append_Empty_l. cbn. rewrite Nat.sub_0_r. reflexivity.
  - destruct n as [| n]; cbn in Hn; [lia |].
    rewrite append_String. cbn. apply IH. lia.
Qed.

(** The rest that [getScheme] returns is the whole text or what follows
    one of its colons. *)
Lemma getScheme_from_rest (raw : string) :
  forall (s : string) (i : nat) (scheme rest : string),
    s = drop i raw ->
    url.getScheme_from i raw s = inr (scheme, rest) ->
    rest = raw \/ exists j : nat, drop j raw = String ":" rest.
Proof.
  induction s as [| c s IH]; intros i scheme rest Hs; cbn [url.getScheme_from].
  - intros [= _ <-]. left. reflexivity.
  - symmetry in Hs. pose proof (drop_S _ _ _ _ Hs) as Hnext. symmetry in Hnext.
    destruct (byte.is_lower c || byte.is_upper c); [apply IH; exact Hnext |].
    destruct (byte.is_digit c || byte.one_of c "+-.").
    { destruct (Nat.eqb i 0); [intros [= _ <-]; left; reflexivity | apply IH; exact Hnext]. }
    destruct (Ascii.eqb c ":") eqn:Hc.
    + destruct (Nat.eqb i 0); [discriminate |].
      intros Heq. assert (Hrest : rest = drop (S i) raw) by congruence.
      right. exists i.
      apply Ascii.eqb_eq in Hc. subst c. rewrite Hrest, <- Hnext. exact Hs.
    + intros [= _ <-]. left. reflexivity.
Qed.

Lemma getScheme_api_suffix (raw scheme rest : string) :
  EndsWith raw "/api" ->
  url.getScheme raw = inr (scheme, rest) ->
  EndsWith rest "/api".
Proof.
  intros Hraw Hscheme. unfold url.getScheme in Hscheme.
  apply (getScheme_from_rest raw raw 0) in Hscheme; [| reflexivity].
  destruct Hscheme as [-> | [j Hj]]; [exact Hraw |].
  destruct Hraw as [p ->].
  destruct (Nat.le_gt_cases j (String.length p)) as [Hle | Hgt].
  - rewrite drop_append_le in Hj by exact Hle.
    destruct (drop j p) as [| c q].
    + rewrite append_Empty_l in Hj. discriminate.
    + rewrite append_String in Hj. injection Hj as _ <-. eexists. reflexivity.
  - rewrite drop_append_ge in Hj by lia.
    destruct (j - String.length p) as [| [| [| [| [| k]]]]]; cbn in Hj; discriminate.
Qed.

(** A text that ends with the API segment and starts with two slashes is
    [//api] or keeps the segment after the two slashes. *)
Lemma api_after_slashes (r : string) :
  EndsWith r "/api" ->
  HasPrefix r "//" = true ->
  r = "//api" \/ EndsWith (drop 2 r) "/api".
Proof.
  intros [p ->] Hpre. destruct p as [| c1 [| c2 p]].
  - rewrite append_Empty_l in Hpre. discriminate.
  - left. rewrite append_String, append_Empty_l in *.
    destruct (proj1 (HasPrefix_true_iff _ _) Hpre) as [t Ht].
    rewrite !append_String, append_Empty_l in Ht. injection Ht as -> _. reflexivity.
  - right. rewrite !append_String. cbn. eexists. reflexivity.
Qed.

Lemma setPath_String_api_suffix (rest path rawPath : string) (u : url.URL) :
  EndsWith rest "/api" ->
  url.setPath rest = inr (path, rawPath) ->
  url.Path u = path -> url.RawPath u = rawPath ->
  url.Fragment u = EmptyString -> url.RawQuery u = EmptyString ->
  url.ForceQuery u = false -> url.Opaque u = EmptyString ->
  EndsWith (url.String_ u) "/api".
Proof.
  intros Hrest Hset Hpath Hraw Hfrag Hquery Hforce Hopaque.
  destruct (setPath_api_suffix _ _ _ Hrest Hset) as [Hp Hr].
  apply String_path_suffix; try assumption.
  apply EscapedPath_api_suffix.
  - rewrite Hpath. exact Hp.
  - rewrite Hraw. destruct Hr as [-> | ->]; [left; reflexivity | right; exact Hrest].
Qed.

Lemma String_host_api (scheme : string) :
  EndsWith (url.String_
              (url.mkURL scheme EmptyString None "api" EmptyString EmptyString
                         false false EmptyString EmptyString EmptyString)) "/api".
Proof.
  set (u := url.mkURL _ _ _ _ _ _ _ _ _ _ _).
  assert (Hauth : url.String_authority u = "//api").
  { unfold url.String_authority, u.
    cbn [url.Scheme url.Host url.User url.OmitHost url.Path url.isSome].
    destruct (negb (isEmpty scheme)); reflexivity. }
  assert (Hpath : url.EscapedPath u = EmptyString) by reflexivity.
  unfold url.String_, url.String_path. rewrite Hauth, Hpath.
  subst u. cbn [url.Opaque url.ForceQuery url.RawQuery url.Fragment url.Host
                isEmpty negb orb andb].
  change (Contains (let '(segment, _, _) := Cut EmptyString "/" in segment) ":") with false.
  rewrite andb_false_r, !append_Empty_l, !append_Empty_r.
  apply EndsWith_append_l. exists "/". reflexivity.
Qed.

(** [parse] on a text that ends with the API segment: the URL it gives
    is written back with the segment at its end. *)
Lemma parse_api_suffix (s : string) (u : url.URL) :
  EndsWith s "/api" ->
  url.parse s false = inr u ->
  url.Fragment u = EmptyString /\ EndsWith (url.String_ u) "/api".
Proof.
  intros Hs. unfold url.parse.
  destruct (url.stringContainsCTLByte s); [discriminate |].
  rewrite andb_false_r, (api_not_star _ Hs).
  destruct (url.getScheme s) as [e | [scheme0 rest0]] eqn:Hscheme; [discriminate |].
  cbn [bind].
  pose proof (getScheme_api_suffix _ _ _ Hs Hscheme) as Hrest0.
  rewrite (HasSuffix_other rest0 "/api" "?" Hrest0) by discriminate.
  cbn [andb].
  destruct (Cut rest0 "?") as [[rest rawQuery] found] eqn:Hcut.
  destruct Hrest0 as [p0 ->].
  pose proof (Cut_suffix p0 "/api" "?" _ _ _ eq_refl Hcut) as Hq. clear Hcut Hscheme.
  set (scheme := ToLower scheme0). rewrite !andb_false_r.
  destruct found.
  - (* the segment is in the query *)
    assert (Hdone : forall v : url.URL,
               url.Fragment v = EmptyString -> url.RawQuery v = rawQuery ->
               url.Fragment v = EmptyString /\ EndsWith (url.String_ v) "/api").
    { intros v Hf Hr. split; [exact Hf |].
      apply String_query_suffix; [exact Hf | rewrite Hr; exact Hq]. }
    destruct (negb (HasPrefix rest "/") && negb (isEmpty scheme)).
    { intros [= <-]. apply Hdone; reflexivity. }
    destruct (negb (HasPrefix rest "/") && Contains _ ":"); [discriminate |].
    destruct (_ && HasPrefix rest "//").
    + destruct (match IndexByte (drop 2 rest) "/" with
                | Some i => _
                | None => _
                end) as [authority rest'].
      destruct (url.parseAuthority authority) as [e | [user host]]; [discriminate |].
      cbn [bind].
      destruct (url.setPath rest') as [e | [path rawPath]]; [discriminate |].
      cbn [bind]. intros [= <-]. apply Hdone; reflexivity.
    + destruct (url.setPath rest) as [e | [path rawPath]]; [discriminate |].
      cbn [bind]. intros [= <-]. apply Hdone; reflexivity.
  - (* the segment is in the opaque part, the host or the path *)
    destruct Hq as [-> ->].
    assert (Hrest : EndsWith (p0 ++ "/api") "/api") by (eexists; reflexivity).
    destruct (negb (HasPrefix (p0 ++ "/api") "/") && negb (isEmpty scheme)).
    { intros [= <-]. split; [reflexivity |].
      apply String_opaque_suffix; try reflexivity. exact Hrest. }
    destruct (negb (HasPrefix (p0 ++ "/api") "/") && Contains _ ":"); [discriminate |].
    destruct (_ && HasPrefix (p0 ++ "/api") "//") eqn:Hcond.
    + apply andb_prop in Hcond as [_ Hpre].
      destruct (api_after_slashes _ Hrest Hpre) as [Heq | [q Hq]].
      * rewrite Heq. cbn. intros [= <-]. split; [reflexivity |].
        apply String_host_api.
      * rewrite Hq.
        destruct (IndexByte_append_present q "/api" "/" eq_refl) as (i & Hi & Hle).
        rewrite Hi.
        destruct (url.parseAuthority (take i (q ++ "/api"))) as [e | [user host]];
          [discriminate |].
        cbn [bind].
        destruct (url.setPath (drop i (q ++ "/api"))) as [e | [path rawPath]] eqn:Hset;
          [discriminate |].
        cbn [bind]. intros [= <-]. split; [reflexivity |].
        eapply setPath_String_api_suffix; try exact Hset; try reflexivity.
        rewrite drop_append_le by exact Hle. eexists. reflexivity.
    + destruct (url.setPath (p0 ++ "/api")) as [e | [path rawPath]] eqn:Hset;
        [discriminate |].
      cbn [bind]. intros [= <-]. split; [reflexivity |].
      eapply setPath_String_api_suffix; try exact Hset; try reflexivity.
      exact Hrest.
Qed.

Lemma Parse_api_suffix (s : string) (u : url.URL) :
  EndsWith s "/api" ->
  url.Parse s = inr u ->
  EndsWith (url.String_ u) "/api".
Proof.
  intros Hs. unfold url.Parse.
  destruct (Cut s "#") as [[u0 frag] found] eqn:Hcut.
  destruct Hs as [p ->].
  pose proof (Cut_suffix p "/api" "#" _ _ _ eq_refl Hcut) as Hfrag. clear Hcut.
  destruct found.
  - destruct (url.parse u0 false) as [e | parsed]; [discriminate |].
    rewrite (EndsWith_nonempty _ _ Hfrag api_nonempty).
    destruct (url.setFragment frag) as [e | [fragment rawFragment]] eqn:Hset;
      [discriminate |].
    intros [= <-].
    destruct (setFragment_api_suffix _ _ _ Hfrag Hset) as [Hf Hr].
    apply String_fragment_suffix; cbn [url.withFragment url.Fragment url.RawFragment].
    + exact Hf.
    + destruct Hr as [-> | ->]; [left; reflexivity | right; exact Hfrag].
  - destruct Hfrag as [-> ->].
    destruct (url.parse (p ++ "/api") false) as [e | parsed] eqn:Hparse; [discriminate |].
    cbn [isEmpty]. intros [= <-].
    eapply parse_api_suffix; [| exact Hparse]. eexists. reflexivity.
Qed.

(** The text [NewClient] parses ends with the API segment. *)
Lemma normalized_base_api_suffix (baseURL : string) :
  EndsWith (if negb (HasSuffix (TrimSuffix baseURL "/") "/api")
            then TrimSuffix baseURL "/" ++ "/api"
            else TrimSuffix baseURL "/") "/api".
Proof.
  destruct (HasSuffix (TrimSuffix baseURL "/") "/api") eqn:Hsuffix; cbn [negb].
  - apply HasSuffix_true_iff. exact Hsuffix.
  - eexists. reflexivity.
Qed.

(** C2. After a successful construction the stored base URL, written as
    text, does not end with a slash and ends with the API path segment
    [/api], whether the base URL given had a trailing slash or not. *)
Theorem NewClient_base_url_ends_with_api {catalogService : Type}
    (newCatalogService : Client catalogService -> catalogService)
    (baseURL ns : string) (httpClient : option http.Client) (tok : string)
    (c : Client catalogService) :
  NewClient newCatalogService baseURL ns httpClient tok = (Some c, None) ->
  exists u : url.URL,
    BaseURL c = Some u
    /\ HasSuffix (url.String_ u) "/" = false
    /\ HasSuffix (url.String_ u) "/api" = true.
Proof.
  intros Hnew.
  destruct (NewClient_success _ _ _ _ _ _ Hnew) as (u & Hparse & Hbase & _).
  exists u. split; [exact Hbase |].
  pose proof (Parse_api_suffix _ _ (normalized_base_api_suffix baseURL) Hparse) as Hends.
  split.
  - apply (HasSuffix_other _ "/api" "/" Hends); discriminate.
  - apply HasSuffix_true_iff. exact Hends.
Qed.

Lemma NewClient_base_url_ends_with_api_witness :
  exists (c : Client unit) (u : url.URL),
    NewClient (fun _ => tt) "http://localhost:7007/api/" EmptyString None EmptyString
      = (Some c, None)
    /\ BaseURL c = Some u
    /\ url.String_ u = "http://localhost:7007/api"
    /\ HasSuffix (url.String_ u) "/" = false
    /\ HasSuffix (url.String_ u) "/api" = true.
Proof.
  eexists.
  assert (Hnew : NewClient (fun _ : Client unit => tt) "http://localhost:7007/api/"
                   EmptyString None EmptyString = (Some _, None))
    by (vm_compute; reflexivity).
  destruct (NewClient_base_url_ends_with_api _ _ _ _ _ _ Hnew) as (u & Hbase & Hslash & Hapi).
  exists u. split; [exact Hnew |]. split; [exact Hbase |].
  split; [| split; assumption].
  vm_compute in Hbase. injection Hbase as <-. vm_compute. reflexivity.
Defined.

(** ** The tests of the package, on the model *)

(** [TestNewClient] *)
Example test_NewClient :
  option_map (fun c : Client unit => (stringOf (BaseURL c), DefaultNamespace c))
    (built (NewClient (fun _ => tt) "http://localhost:7007/api" "custom" None EmptyString))
  = Some ("http://localhost:7007/api", "custom").
Proof. vm_compute. reflexivity. Qed.

(** [TestNewClient_ExistingHTTPClient] *)
Example test_NewClient_ExistingHTTPClient :
  option_map (fun c : Client unit => option_map http.Timeout (client c))
    (built (NewClient (fun _ => tt) "http://localhost:7007/api" EmptyString
              (Some (http.mkClient None 1000000000)) EmptyString))
  = Some (Some 1000000000%Z).
Proof. vm_compute. reflexivity. Qed.

(** [TestNewClient_TrimBaseURLSuffix] and [TestNewClient_DefaultNamespace] *)
Example test_NewClient_TrimBaseURLSuffix :
  option_map (fun c : Client unit => (stringOf (BaseURL c), DefaultNamespace c))
    (built (NewClient (fun _ => tt) "http://localhost:7007/api/" EmptyString None EmptyString))
  = Some ("http://localhost:7007/api", "default").
Proof. vm_compute. reflexivity. Qed.

(** [TestNewRequest_Get] *)
Example test_NewRequest_Get :
  option_map
    (fun req => (http.Method req, url.String_ (http.URL req),
                 http.Header_Get (http.Header_ req) "Accept",
                 http.Header_Get (http.Header_ req) "User-Agent"))
    (built (newRequest
              (mkClient None (Some (url.mkURL "http" EmptyString None "localhost:7007"
                                      "/api" EmptyString false false
                                      EmptyString EmptyString EmptyString))
                        "foo" EmptyString (@None unit) EmptyString)
              "GET" "/catalog/entities" (@None bool)))
  = Some ("GET", "http://localhost:7007/api/catalog/entities", "application/json", "foo").
Proof. vm_compute. reflexivity. Qed.

(** [TestNewRequest_InvalidURL] *)
Example test_NewRequest_InvalidURL :
  newRequest bareClient "GET" "\foo:bar" (@None bool)
  = (None, Some (url_Error "parse" "\foo:bar"
                   (errorString "first path segment in URL cannot contain colon"))).
Proof. vm_compute. reflexivity. Qed.

(** [TestDo_EmptyBody] and [TestDo_Fail] *)
Example test_Do_EmptyBody :
  do (stubServer 200 EmptyString) sampleClient context.Background sampleRequest (@None bool)
  = Returns (Some (http.mkResponse 200 ∅ (http.mkReadCloser EmptyString true)), None, None).
Proof. reflexivity. Qed.

Example test_Do_Fail :
  exists err : error,
    do unreachable sampleClient context.Background sampleRequest (@None bool)
    = Returns (None, Some err, None).
Proof. eexists. reflexivity. Qed.

(** * Further properties of the three functions *)

(** ** [NewClient] *)

(** [NewClient] reads the base URL through its normalized text only. *)
Lemma NewClient_same_text {catalogService : Type}
    (newCatalogService : Client catalogService -> catalogService)
    (b1 b2 ns : string) (httpClient : option http.Client) (tok : string) :
  (if negb (HasSuffix (TrimSuffix b1 "/") "/api")
   then TrimSuffix b1 "/" ++ "/api" else TrimSuffix b1 "/")
  = (if negb (HasSuffix (TrimSuffix b2 "/") "/api")
     then TrimSuffix b2 "/" ++ "/api" else TrimSuffix b2 "/") ->
  NewClient newCatalogService b1 ns httpClient tok
  = NewClient newCatalogService b2 ns httpClient tok.
Proof. intros Heq. unfold NewClient. cbv zeta. rewrite Heq. reflexivity. Qed.

Lemma TrimSuffix_append (b suffix : string) : TrimSuffix (b ++ suffix) suffix = b.
Proof.
  unfold TrimSuffix.
  rewrite (proj2 (HasSuffix_true_iff (b ++ suffix) suffix)) by (eexists; reflexivity).
  rewrite length_append.
  replace (String.length b + String.length suffix - String.length suffix)
    with (String.length b) by lia.
  apply take_length_append.
Qed.

Lemma TrimSuffix_absent (b suffix : string) :
  HasSuffix b suffix = false -> TrimSuffix b suffix = b.
Proof. intros Hb. unfold TrimSuffix. rewrite Hb. reflexivity. Qed.

Lemma HasSuffix_append (b suffix : string) : HasSuffix (b ++ suffix) suffix = true.
Proof. apply HasSuffix_true_iff. eexists. reflexivity. Qed.

Lemma api_no_trailing_slash (b : string) : HasSuffix (b ++ "/api") "/" = false.
Proof.
  apply (HasSuffix_other _ "/api" "/"); try discriminate. eexists. reflexivity.
Qed.

(** The text parsed for [b], [b/], [b/api] and [b/api/] is [b/api]. *)
Lemma normalized_plain (b : string) :
  HasSuffix b "/" = false -> HasSuffix b "/api" = false ->
  (if negb (HasSuffix (TrimSuffix b "/") "/api")
   then TrimSuffix b "/" ++ "/api" else TrimSuffix b "/") = b ++ "/api".
Proof.
  intros Hslash Hapi. rewrite (TrimSuffix_absent _ _ Hslash), Hapi. reflexivity.
Qed.

Lemma normalized_with_api (b : string) :
  (if negb (HasSuffix (TrimSuffix (b ++ "/api") "/") "/api")
   then TrimSuffix (b ++ "/api") "/" ++ "/api" else TrimSuffix (b ++ "/api") "/")
  = b ++ "/api".
Proof.
  rewrite (TrimSuffix_absent _ _ (api_no_trailing_slash b)), HasSuffix_append.
  reflexivity.
Qed.

Lemma normalized_with_slash (b : string) :
  (if negb (HasSuffix (TrimSuffix (b ++ "/") "/") "/api")
   then TrimSuffix (b ++ "/") "/" ++ "/api" else TrimSuffix (b ++ "/") "/")
  = (if negb (HasSuffix b "/api") then b ++ "/api" else b).
Proof. rewrite TrimSuffix_append. reflexivity. Qed.

(** X1. After a successful construction every field of the client is
    set: the HTTP client is the one supplied, or a zero [http.Client] when
    none was; the base URL is not nil; the user agent is [go-backstage];
    the token is the one supplied; the catalog service is the one built
    from the client with its other fields already final. *)
Theorem NewClient_initialises_every_field {catalogService : Type}
    (newCatalogService : Client catalogService -> catalogService)
    (baseURL ns : string) (httpClient : option http.Client) (tok : string)
    (c : Client catalogService) :
  NewClient newCatalogService baseURL ns httpClient tok = (Some c, None) ->
  client c = Some (match httpClient with
                   | Some h => h
                   | None => http.mkClient None 0
                   end)
  /\ (exists u : url.URL, BaseURL c = Some u)
  /\ UserAgent c = "go-backstage"
  /\ token c = tok
  /\ Catalog c
     = Some (newCatalogService
               (mkClient (client c) (BaseURL c) (UserAgent c) (DefaultNamespace c)
                         None (token c))).
Proof.
  unfold NewClient. cbv zeta.
  destruct (url.Parse _) as [err | baseEndpoint]; [discriminate |].
  intros [= <-]. cbn. repeat split; eauto.
Qed.

Lemma NewClient_initialises_every_field_witness :
  exists c : Client unit,
    NewClient (fun _ => tt) "http://localhost:7007" "ns"
      (Some (http.mkClient None 5)) "secret" = (Some c, None)
    /\ client c = Some (http.mkClient None 5)
    /\ token c = "secret".
Proof.
  eexists. split; [vm_compute; reflexivity |].
  destruct (NewClient_initialises_every_field (fun _ : Client unit => tt)
              "http://localhost:7007" "ns" (Some (http.mkClient None 5)) "secret" _
              ltac:(vm_compute; reflexivity)) as (Hc & _ & _ & Ht & _).
  split; [exact Hc | exact Ht].
Defined.

(** X2. Whether a construction fails, and with which error, depends on
    the base URL alone, not on the namespace, the HTTP client, the token
    or the catalog constructor; and exactly one of the returned client and
    error is nil. *)
Theorem NewClient_fails_on_base_url_alone {catalogService : Type}
    (ncs1 ncs2 : Client catalogService -> catalogService)
    (baseURL ns1 ns2 : string) (hc1 hc2 : option http.Client) (tok1 tok2 : string) :
  snd (NewClient ncs1 baseURL ns1 hc1 tok1) = snd (NewClient ncs2 baseURL ns2 hc2 tok2)
  /\ ((exists c, NewClient ncs1 baseURL ns1 hc1 tok1 = (Some c, None))
      \/ (exists err, NewClient ncs1 baseURL ns1 hc1 tok1 = (None, Some err))).
Proof.
  unfold NewClient. cbv zeta.
  destruct (url.Parse _) as [err | baseEndpoint]; cbn; split; eauto.
Qed.

(** X3. A trailing slash and a trailing API segment in the base URL make
    no difference: for a text [b] that ends with neither, the base URLs
    [b], [b/], [b/api] and [b/api/] give the same result. *)
Theorem NewClient_spellings_agree {catalogService : Type}
    (newCatalogService : Client catalogService -> catalogService)
    (b ns : string) (httpClient : option http.Client) (tok : string) :
  HasSuffix b "/" = false ->
  HasSuffix b "/api" = false ->
  NewClient newCatalogService (b ++ "/") ns httpClient tok
    = NewClient newCatalogService b ns httpClient tok
  /\ NewClient newCatalogService (b ++ "/api") ns httpClient tok
     = NewClient newCatalogService b ns httpClient tok
  /\ NewClient newCatalogService ((b ++ "/api") ++ "/") ns httpClient tok
     = NewClient newCatalogService b ns httpClient tok.
Proof.
  intros Hslash Hapi. repeat split; apply NewClient_same_text;
    rewrite (normalized_plain b Hslash Hapi).
  - rewrite normalized_with_slash, Hapi. reflexivity.
  - apply normalized_with_api.
  - rewrite normalized_with_slash, HasSuffix_append. reflexivity.
Qed.

Lemma NewClient_spellings_agree_witness :
  NewClient (fun _ : Client unit => tt) "http://localhost:7007/api/" EmptyString None EmptyString
  = NewClient (fun _ : Client unit => tt) "http://localhost:7007" EmptyString None EmptyString.
Proof.
  refine (proj2 (proj2 (NewClient_spellings_agree (fun _ : Client unit => tt)
                          "http://localhost:7007" EmptyString None EmptyString _ _)));
    vm_compute; reflexivity.
Defined.

(** X4. Only one trailing slash is trimmed: a base URL that ends with two
    slashes is handled as if the API segment followed them, so a slash
    stays in front of the appended segment. *)
Theorem NewClient_trims_one_slash {catalogService : Type}
    (newCatalogService : Client catalogService -> catalogService)
    (b ns : string) (httpClient : option http.Client) (tok : string) :
  NewClient newCatalogService ((b ++ "/") ++ "/") ns httpClient tok
  = NewClient newCatalogService ((b ++ "/") ++ "/api") ns httpClient tok.
Proof.
  apply NewClient_same_text.
  rewrite normalized_with_slash, normalized_with_api.
  rewrite (HasSuffix_other (b ++ "/") "/" "/api") by (try discriminate; eexists; reflexivity).
  reflexivity.
Qed.

Lemma Cut_found (s : string) (c : ascii) (before after : string) (found : bool) :
  Cut s c = (before, after, found) -> found = Contains s c.
Proof.
  unfold Cut, Contains. destruct (IndexByte s c); intros Hcut; congruence.
Qed.

Lemma Contains_append_l (p t : string) (c : ascii) :
  Contains p c = true -> Contains (p ++ t) c = true.
Proof.
  unfold Contains. induction p as [| a p IH]; cbn; [discriminate |].
  rewrite append_String. cbn. destruct (Ascii.eqb a c); [reflexivity |].
  destruct (IndexByte p c); [| discriminate].
  intros _. specialize (IH eq_refl). destruct (IndexByte (p ++ t) c); [reflexivity | discriminate].
Qed.

Lemma Contains_append_absent (p t : string) (c : ascii) :
  Contains t c = false -> Contains (p ++ t) c = Contains p c.
Proof. intros Ht. unfold Contains. rewrite IndexByte_append_absent by exact Ht. reflexivity. Qed.

Lemma Contains_String_false (a c : ascii) (s : string) :
  Contains (String a s) c = false -> Ascii.eqb a c = false /\ Contains s c = false.
Proof.
  unfold Contains. cbn [IndexByte]. destruct (Ascii.eqb a c); [discriminate |].
  destruct (IndexByte s c); [discriminate |]. split; reflexivity.
Qed.

(** Trimming a slash and appending the API segment neither adds nor
    removes a [#] or a [?]. *)
Lemma normalized_Contains (b : string) (c : ascii) :
  Contains "/api" c = false ->
  Contains (if negb (HasSuffix (TrimSuffix b "/") "/api")
            then TrimSuffix b "/" ++ "/api" else TrimSuffix b "/") c
  = Contains b c.
Proof.
  intros Hc.
  assert (Htrim : Contains (TrimSuffix b "/") c = Contains b c).
  { destruct (HasSuffix b "/") eqn:Hslash.
    - destruct (proj1 (HasSuffix_true_iff _ _) Hslash) as [t ->].
      rewrite TrimSuffix_append. symmetry. apply Contains_append_absent.
      apply Contains_String_false in Hc as [Hslashc _].
      unfold Contains. cbn [IndexByte]. rewrite Hslashc. reflexivity.
    - rewrite TrimSuffix_absent by exact Hslash. reflexivity. }
  destruct (HasSuffix (TrimSuffix b "/") "/api"); cbn [negb].
  - exact Htrim.
  - rewrite Contains_append_absent by exact Hc. exact Htrim.
Qed.

Lemma Contains_String_other (a c : ascii) (s : string) :
  Ascii.eqb a c = false -> Contains (String a s) c = Contains s c.
Proof.
  intros Hac. unfold Contains. cbn. rewrite Hac.
  destruct (IndexByte s c); reflexivity.
Qed.

(** A question mark is no scheme byte: it stays in the rest that
    [getScheme] returns. *)
Lemma getScheme_from_keeps_query (raw : string) :
  forall (s : string) (i : nat) (scheme rest : string),
    s = drop i raw ->
    Contains raw "?" = true ->
    Contains s "?" = true ->
    url.getScheme_from i raw s = inr (scheme, rest) ->
    Contains rest "?" = true.
Proof.
  induction s as [| c s IH]; intros i scheme rest Hs Hraw Hcontains;
    cbn [url.getScheme_from].
  - intros [= _ <-]. exact Hraw.
  - symmetry in Hs. pose proof (drop_S _ _ _ _ Hs) as Hnext. symmetry in Hnext.
    destruct (Ascii.eqb c "?") eqn:Hq.
    { apply Ascii.eqb_eq in Hq. subst c. cbn. intros [= _ <-]. exact Hraw. }
    rewrite (Contains_String_other _ _ _ Hq) in Hcontains.
    destruct (byte.is_lower c || byte.is_upper c); [apply IH; assumption |].
    destruct (byte.is_digit c || byte.one_of c "+-.").
    { destruct (Nat.eqb i 0); [intros [= _ <-]; exact Hraw | apply IH; assumption]. }
    destruct (Ascii.eqb c ":").
    + destruct (Nat.eqb i 0); [discriminate |].
      intros Heq. assert (Hrest : rest = drop (S i) raw) by congruence.
      rewrite Hrest, <- Hnext. exact Hcontains.
    + intros [= _ <-]. exact Hraw.
Qed.

(** [parse] on a text with a question mark that ends with the API
    segment: the segment ends the query. *)
Lemma parse_api_in_query (s : string) (u : url.URL) :
  EndsWith s "/api" ->
  Contains s "?" = true ->
  url.parse s false = inr u ->
  EndsWith (url.RawQuery u) "/api".
Proof.
  intros Hs Hquery. unfold url.parse.
  destruct (url.stringContainsCTLByte s); [discriminate |].
  rewrite andb_false_r, (api_not_star _ Hs).
  destruct (url.getScheme s) as [e | [scheme0 rest0]] eqn:Hscheme; [discriminate |].
  cbn [bind].
  pose proof (getScheme_api_suffix _ _ _ Hs Hscheme) as Hrest0.
  assert (Hrestq : Contains rest0 "?" = true).
  { unfold url.getScheme in Hscheme.
    exact (getScheme_from_keeps_query s s 0 _ _ eq_refl Hquery Hquery Hscheme). }
  rewrite (HasSuffix_other rest0 "/api" "?" Hrest0) by discriminate.
  cbn [andb].
  destruct (Cut rest0 "?") as [[rest rawQuery] found] eqn:Hcut.
  pose proof (Cut_found _ _ _ _ _ Hcut) as Hfound. rewrite Hrestq in Hfound. subst found.
  destruct Hrest0 as [p0 ->].
  pose proof (Cut_suffix p0 "/api" "?" _ _ _ eq_refl Hcut) as Hq. cbn in Hq.
  clear Hcut Hscheme. rewrite !andb_false_r.
  destruct (negb (HasPrefix rest "/") && negb (isEmpty (ToLower scheme0))).
  { intros [= <-]. exact Hq. }
  destruct (negb (HasPrefix rest "/") && Contains _ ":"); [discriminate |].
  destruct (_ && HasPrefix rest "//").
  - destruct (match IndexByte (drop 2 rest) "/" with
              | Some i => _
              | None => _
              end) as [authority rest'].
    destruct (url.parseAuthority authority) as [e | [user host]]; [discriminate |].
    cbn [bind].
    destruct (url.setPath rest') as [e | [path rawPath]]; [discriminate |].
    cbn [bind]. intros [= <-]. exact Hq.
  - destruct (url.setPath rest) as [e | [path rawPath]]; [discriminate |].
    cbn [bind]. intros [= <-]. exact Hq.
Qed.

Lemma IndexByte_append_found (p t : string) (c : ascii) (i : nat) :
  IndexByte p c = Some i -> IndexByte (p ++ t) c = Some i.
Proof.
  revert i. induction p as [| a p IH]; intros i; cbn [IndexByte]; [discriminate |].
  rewrite append_String. cbn [IndexByte]. destruct (Ascii.eqb a c); [trivial |].
  destruct (IndexByte p c) as [j |]; [| discriminate].
  intros [= <-]. rewrite (IH j eq_refl). reflexivity.
Qed.

(** [Parse] on a text with a [#] that ends with the API segment: the
    segment ends the fragment. *)
Lemma Parse_api_in_fragment (s : string) (u : url.URL) :
  EndsWith s "/api" ->
  Contains s "#" = true ->
  url.Parse s = inr u ->
  EndsWith (url.Fragment u) "/api".
Proof.
  intros Hs Hhash. unfold url.Parse.
  destruct (Cut s "#") as [[u0 frag] found] eqn:Hcut.
  pose proof (Cut_found _ _ _ _ _ Hcut) as Hfound. rewrite Hhash in Hfound. subst found.
  destruct Hs as [p ->].
  pose proof (Cut_suffix p "/api" "#" _ _ _ eq_refl Hcut) as Hfrag. cbn in Hfrag.
  destruct (url.parse u0 false) as [e | parsed]; [discriminate |].
  rewrite (EndsWith_nonempty _ _ Hfrag api_nonempty).
  destruct (url.setFragment frag) as [e | [fragment rawFragment]] eqn:Hset; [discriminate |].
  intros [= <-]. cbn [url.withFragment url.Fragment].
  exact (proj1 (setFragment_api_suffix _ _ _ Hfrag Hset)).
Qed.

(** What follows a [#] does not reach the path. *)
Lemma Parse_append_after_hash (t x : string) (ut u : url.URL) :
  Contains t "#" = true ->
  url.Parse t = inr ut ->
  url.Parse (t ++ x) = inr u ->
  url.Path u = url.Path ut.
Proof.
  unfold Contains, url.Parse, Cut.
  destruct (IndexByte t "#") as [i |] eqn:Hi; [| discriminate]. intros _.
  rewrite (IndexByte_append_found t x "#" i Hi).
  pose proof (IndexByte_lt _ _ _ Hi) as Hlt.
  rewrite (take_append_le i t x) by lia.
  destruct (url.parse (take i t) false) as [e | parsed]; [discriminate |].
  intros Hut Hu.
  assert (Hpath : forall (frag : string) (v : url.URL),
             (if isEmpty frag then inr parsed
              else match url.setFragment frag with
                   | inl err => inl (url_Error "parse" t err)
                   | inr (fragment, rawFragment) =>
                       inr (url.withFragment parsed fragment rawFragment)
                   end) = inr v -> url.Path v = url.Path parsed).
  { intros frag v. destruct (isEmpty frag); [intros [= <-]; reflexivity |].
    destruct (url.setFragment frag) as [e | [fragment rawFragment]]; [discriminate |].
    intros [= <-]. reflexivity. }
  rewrite (Hpath _ _ Hut).
  destruct (isEmpty (drop (S i) (t ++ x))); [injection Hu as <-; reflexivity |].
  destruct (url.setFragment (drop (S i) (t ++ x))) as [e | [fragment rawFragment]];
    [discriminate |].
  injection Hu as <-. reflexivity.
Qed.

(** X5. The API segment is looked for, and appended, in the text of the
    base URL, before the text is parsed. For a base URL with a [#], the
    stored URL has the segment at the end of its fragment, and its path is
    the path of the base URL as given: nothing is added to it. For a base
    URL with a [?] and no [#], the segment ends the stored query string. *)
Theorem NewClient_api_segment_in_fragment_or_query {catalogService : Type}
    (newCatalogService : Client catalogService -> catalogService)
    (baseURL ns : string) (httpClient : option http.Client) (tok : string)
    (c : Client catalogService) :
  NewClient newCatalogService baseURL ns httpClient tok = (Some c, None) ->
  exists u : url.URL,
    BaseURL c = Some u
    /\ (Contains baseURL "#" = true ->
        EndsWith (url.Fragment u) "/api"
        /\ forall given : url.URL,
            url.Parse (TrimSuffix baseURL "/") = inr given ->
            url.Path u = url.Path given)
    /\ (Contains baseURL "#" = false -> Contains baseURL "?" = true ->
        EndsWith (url.RawQuery u) "/api").
Proof.
  intros Hnew.
  destruct (NewClient_success _ _ _ _ _ _ Hnew) as (u & Hparse & Hbase & _).
  exists u. split; [exact Hbase |].
  pose proof (normalized_base_api_suffix baseURL) as Hends.
  pose proof (normalized_Contains baseURL "#" eq_refl) as Hhash.
  pose proof (normalized_Contains baseURL "?" eq_refl) as Hquery.
  split.
  - intros Hb. rewrite Hb in Hhash. split.
    + exact (Parse_api_in_fragment _ _ Hends Hhash Hparse).
    + intros given Hgiven.
      destruct (HasSuffix (TrimSuffix baseURL "/") "/api"); cbn [negb] in *.
      * congruence.
      * apply (Parse_append_after_hash (TrimSuffix baseURL "/") "/api" given u);
          [| exact Hgiven | exact Hparse].
        rewrite Contains_append_absent in Hhash by reflexivity. exact Hhash.
  - intros Hb Hq. rewrite Hb in Hhash. rewrite Hq in Hquery.
    set (s := if negb _ then _ else _) in *.
    unfold url.Parse, Cut in Hparse. unfold Contains in Hhash.
    destruct (IndexByte s "#"); [discriminate |].
    destruct (url.parse s false) as [e | parsed] eqn:Hp; [discriminate |].
    cbn [isEmpty] in Hparse. injection Hparse as <-.
    exact (parse_api_in_query _ _ Hends Hquery Hp).
Qed.

Lemma NewClient_api_segment_in_fragment_or_query_witness :
  exists (c : Client unit) (u : url.URL),
    NewClient (fun _ => tt) "http://localhost:7007/backstage?tenant=a" EmptyString
      None EmptyString = (Some c, None)
    /\ BaseURL c = Some u
    /\ EndsWith (url.RawQuery u) "/api"
    /\ url.Path u = "/backstage".
Proof.
  eexists.
  assert (Hnew : NewClient (fun _ : Client unit => tt)
                   "http://localhost:7007/backstage?tenant=a" EmptyString None EmptyString
                 = (Some _, None)) by (vm_compute; reflexivity).
  destruct (NewClient_api_segment_in_fragment_or_query _ _ _ _ _ _ Hnew)
    as (u & Hbase & _ & Hq).
  exists u. split; [exact Hnew |]. split; [exact Hbase |].
  split; [apply Hq; reflexivity |].
  vm_compute in Hbase. injection Hbase as <-. reflexivity.
Defined.

(** ** [newRequest] *)

Section NewRequestErrors.

Context {catalogService T : Type} `{json.Marshaler T}.

(** The steps of [newRequest] in their order: parse the path, encode the
    body, build the request. *)
Lemma newRequest_steps (c : Client catalogService) (method urlStr : string)
    (body : option T) (u : url.URL) :
  url.Parse urlStr = inr u ->
  (forall (b : T) (e : error), body = Some b -> json.marshal b = inl e ->
     newRequest c method urlStr body = (None, Some e))
  /\ ((forall b : T, body = Some b -> exists encoding, json.marshal b = inr encoding) ->
      http.validMethod (if isEmpty method then "GET" else method) = false ->
      exists msg : string,
        newRequest c method urlStr body = (None, Some (errorString msg)))
  /\ (forall req : http.Request,
        fst (newRequest c method urlStr body) = Some req ->
        http.validMethod (if isEmpty method then "GET" else method) = true).
Proof.
  intros Hparse. unfold newRequest. rewrite Hparse.
  split; [| split].
  - intros b e -> Hb. unfold json.Encode. rewrite Hb. reflexivity.
  - intros Hbody Hmethod.
    assert (Henc : exists buf : option string,
               match body with
               | Some b => let? buf := json.Encode b in inr (Some buf)
               | None => inr None
               end = inr buf).
    { destruct body as [b |]; [| eauto].
      destruct (Hbody b eq_refl) as [encoding Hb].
      unfold json.Encode. rewrite Hb. cbn. eauto. }
    destruct Henc as [buf ->].
    unfold http.NewRequest. rewrite Hmethod. cbn. eauto.
  - intros req.
    destruct (match body with
              | Some b => _
              | None => _
              end) as [e | buf]; [discriminate |].
    unfold http.NewRequest.
    destruct (http.validMethod _); [reflexivity | discriminate].
Qed.

End NewRequestErrors.

(** X6. A request that [newRequest] builds has the method it was given,
    and [GET] when that is empty; the method is never empty and holds
    token bytes only. [newRequest] returns a request or an error, never
    both and never neither. *)
Theorem newRequest_method {catalogService T : Type} `{json.Marshaler T}
    (c : Client catalogService) (method urlStr : string) (body : option T) :
  ((exists req, newRequest c method urlStr body = (Some req, None))
   \/ (exists err, newRequest c method urlStr body = (None, Some err)))
  /\ forall req : http.Request,
      newRequest c method urlStr body = (Some req, None) ->
      http.Method req = (if isEmpty method then "GET" else method)
      /\ http.Method req <> EmptyString
      /\ all textproto.isTokenByte (http.Method req) = true.
Proof.
  split.
  - unfold newRequest.
    destruct (url.Parse urlStr) as [err | u]; [eauto |].
    destruct (match body with
              | Some b => _
              | None => _
              end) as [e | buf]; [eauto |].
    destruct (http.NewRequest _ _ _); eauto.
  - intros req Hnew.
    assert (Hfst : fst (newRequest c method urlStr body) = Some req)
      by (rewrite Hnew; reflexivity).
    destruct (newRequest_success _ _ _ _ _ Hfst) as (u & u' & Hparse & _ & _ & Hm & _).
    pose proof (proj2 (proj2 (newRequest_steps c method urlStr body u Hparse)) req Hfst)
      as Hvalid.
    rewrite Hm. split; [reflexivity |].
    unfold http.validMethod in Hvalid. apply andb_prop in Hvalid as [Hlen Hall].
    split; [| exact Hall].
    intros Hempty. rewrite Hempty in Hlen. discriminate.
Qed.

Lemma newRequest_method_witness :
  exists req : http.Request,
    newRequest sampleClient EmptyString "/catalog/entities" (@None bool) = (Some req, None)
    /\ http.Method req = "GET".
Proof.
  eexists. split; [vm_compute; reflexivity |].
  refine (proj1 (proj2 (newRequest_method sampleClient EmptyString "/catalog/entities"
                          (@None bool)) _ _)).
  vm_compute. reflexivity.
Defined.

(** X7. When the path parses and the body, if any, can be encoded, a
    method that is not a token (it holds a space, say) makes [newRequest]
    return an error and no request. *)
Theorem newRequest_invalid_method {catalogService T : Type} `{json.Marshaler T}
    (c : Client catalogService) (method urlStr : string) (body : option T) (u : url.URL) :
  url.Parse urlStr = inr u ->
  (forall b : T, body = Some b -> exists encoding, json.marshal b = inr encoding) ->
  method <> EmptyString ->
  all textproto.isTokenByte method = false ->
  exists msg : string, newRequest c method urlStr body = (None, Some (errorString msg)).
Proof.
  intros Hparse Hbody Hne Htoken.
  apply (proj1 (proj2 (newRequest_steps c method urlStr body u Hparse))); [exact Hbody |].
  destruct method as [| a m]; [congruence |].
  cbn [isEmpty]. unfold http.validMethod. rewrite Htoken. apply andb_false_r.
Qed.

Lemma newRequest_invalid_method_witness :
  exists msg : string,
    newRequest sampleClient "GE T" "/catalog/entities" (Some true)
    = (None, Some (errorString msg)).
Proof.
  refine (newRequest_invalid_method sampleClient "GE T" "/catalog/entities" (Some true)
            (url.mkURL EmptyString EmptyString None EmptyString "/catalog/entities"
                       EmptyString false false EmptyString EmptyString EmptyString)
            _ _ _ _).
  - vm_compute. reflexivity.
  - intros b _. destruct b; eexists; reflexivity.
  - discriminate.
  - reflexivity.
Defined.

(** X8. When the path parses and the body cannot be encoded as JSON,
    [newRequest] returns the error of the encoder and no request, whatever
    the method and the client are. *)
Theorem newRequest_serialization_error {catalogService T : Type} `{json.Marshaler T}
    (c : Client catalogService) (method urlStr : string) (b : T) (u : url.URL) (e : error) :
  url.Parse urlStr = inr u ->
  json.marshal b = inl e ->
  newRequest c method urlStr (Some b) = (None, Some e).
Proof.
  intros Hparse Hb.
  exact (proj1 (newRequest_steps c method urlStr (Some b) u Hparse) b e eq_refl Hb).
Qed.

Lemma newRequest_serialization_error_witness :
  newRequest sampleClient "POST" "/catalog/entities" (Some makeChan)
  = (None, Some (json_UnsupportedTypeError "chan int")).
Proof.
  refine (newRequest_serialization_error sampleClient "POST" "/catalog/entities" makeChan
            (url.mkURL EmptyString EmptyString None EmptyString "/catalog/entities"
                       EmptyString false false EmptyString EmptyString EmptyString)
            _ _ _).
  - vm_compute. reflexivity.
  - reflexivity.
Defined.

(** X9. A request that [newRequest] builds has no header besides
    [Content-Type], [Accept], [User-Agent] and [Authorization], and each
    header it has holds one value. *)
Theorem newRequest_no_other_header {catalogService T : Type} `{json.Marshaler T}
    (c : Client catalogService) (method urlStr : string) (body : option T)
    (req : http.Request) (key : string) (values : list string) :
  newRequest c method urlStr body = (Some req, None) ->
  http.Header_ req !! key = Some values ->
  In key requestHeaderNames /\ exists value : string, values = value :: nil.
Proof.
  intros Hnew.
  assert (Hfst : fst (newRequest c method urlStr body) = Some req)
    by (rewrite Hnew; reflexivity).
  destruct (newRequest_success _ _ _ _ _ Hfst) as (u & u' & _ & _ & _ & _ & _ & _ & Hhdr).
  rewrite Hhdr. unfold requestHeaders, requestHeaderNames.
  destruct body as [b |], (negb (isEmpty (UserAgent c))), (negb (isEmpty (token c)));
    intros Hlook; cbv zeta in Hlook;
    repeat match type of Hlook with
           | <[?k := _]> _ !! key = Some _ =>
               destruct (decide (k = key)) as [<- | ?];
               [rewrite lookup_insert_eq in Hlook; injection Hlook as <-;
                split; [cbn; auto 6 | eauto]
               | rewrite lookup_insert_ne in Hlook by assumption]
           end;
    rewrite lookup_empty in Hlook; discriminate.
Qed.

Lemma newRequest_no_other_header_witness :
  exists req : http.Request,
    newRequest sampleClient "GET" "/catalog/entities" (@None bool) = (Some req, None)
    /\ http.Header_ req !! "Host" = None.
Proof.
  eexists. split; [vm_compute; reflexivity |].
  destruct (http.Header_ _ !! "Host") as [values |] eqn:Hlook; [| reflexivity].
  destruct (proj1 (newRequest_no_other_header sampleClient "GET" "/catalog/entities"
                     (@None bool) _ "Host" values ltac:(vm_compute; reflexivity) Hlook))
    as [Hk | [Hk | [Hk | [Hk | []]]]]; discriminate Hk.
Defined.

(** X10. Every request built from a client that [NewClient] returned
    carries [User-Agent: go-backstage] and [Accept: application/json], and
    carries [Authorization: Bearer] with the token exactly when a token
    was given to [NewClient]. *)
Theorem constructed_client_request_headers {catalogService T : Type} `{json.Marshaler T}
    (newCatalogService : Client catalogService -> catalogService)
    (baseURL ns : string) (httpClient : option http.Client) (tok : string)
    (c : Client catalogService) (method urlStr : string) (body : option T)
    (req : http.Request) :
  NewClient newCatalogService baseURL ns httpClient tok = (Some c, None) ->
  newRequest c method urlStr body = (Some req, None) ->
  http.Header_ req !! "User-Agent" = Some ("go-backstage" :: nil)
  /\ http.Header_ req !! "Accept" = Some ("application/json" :: nil)
  /\ http.Header_ req !! "Authorization"
     = (if isEmpty tok then None else Some (("Bearer " ++ tok)%string :: nil)).
Proof.
  intros Hclient Hnew.
  destruct (NewClient_success _ _ _ _ _ _ Hclient) as (u0 & _ & _ & _ & Hua & Htok).
  assert (Hfst : fst (newRequest c method urlStr body) = Some req)
    by (rewrite Hnew; reflexivity).
  destruct (newRequest_success _ _ _ _ _ Hfst) as (u & u' & _ & _ & _ & _ & _ & _ & Hhdr).
  rewrite Hhdr. unfold requestHeaders. rewrite Hua, Htok. unfold userAgent, contentTypeJSON.
  cbn [isEmpty negb].
  destruct body as [b |], (isEmpty tok); cbn [negb]; repeat split; simplify_map_eq; reflexivity.
Qed.

Lemma constructed_client_request_headers_witness :
  exists (c : Client unit) (req : http.Request),
    NewClient (fun _ => tt) "http://localhost:7007" EmptyString None EmptyString
      = (Some c, None)
    /\ newRequest c "GET" "/catalog/entities" (@None bool) = (Some req, None)
    /\ http.Header_ req !! "User-Agent" = Some ("go-backstage" :: nil)
    /\ http.Header_ req !! "Authorization" = None.
Proof.
  eexists. eexists.
  assert (Hclient : NewClient (fun _ : Client unit => tt) "http://localhost:7007"
                      EmptyString None EmptyString = (Some _, None))
    by (vm_compute; reflexivity).
  split; [exact Hclient |]. split; [vm_compute; reflexivity |].
  destruct (constructed_client_request_headers (fun _ : Client unit => tt)
              "http://localhost:7007" EmptyString None EmptyString _
              "GET" "/catalog/entities" (@None bool) _ Hclient
              ltac:(vm_compute; reflexivity)) as (Hua & _ & Hauth).
  split; [exact Hua | exact Hauth].
Defined.

(** ** [do] *)

(** The errors of the scan: the end of the input, reached before or
    inside a value, and syntax errors. *)
Lemma readValue_loop_errors (whole buf : string) :
  forall (s : json.scanner) (scanp : nat) (e : error),
    syntaxErrorsOnly s ->
    json.readValue_loop whole s buf scanp = inl e ->
    e = io_EOF \/ e = io_ErrUnexpectedEOF \/ exists msg, e = json_SyntaxError msg.
Proof.
  induction buf as [| c buf IH]; intros s scanp e Hs; cbn.
  - destruct (json.isEnd _); [discriminate |].
    destruct (json.nonSpace whole); intros [= <-]; auto.
  - pose proof (apply_syntaxErrorsOnly s c Hs) as Hs1.
    destruct (json.apply s c) as [s1 code]. cbn in Hs1.
    pose proof (stateEndValue_syntaxErrorsOnly s1 " " Hs1) as Hs2.
    destruct (json.stateEndValue s1 " ") as [s2 code2]. cbn in Hs2.
    destruct code; try (apply IH; assumption); try discriminate.
    + destruct (json.isEnd code2); [discriminate | apply IH; assumption].
    + destruct (json.isEnd code2); [discriminate | apply IH; assumption].
    + intros [= <-]. right. right.
      unfold json.scanErr, syntaxErrorsOnly in *.
      destruct (json.err s1) as [[] |]; try contradiction; eauto.
Qed.

(** The scan stops at the end of the first value: it returns a length
    within the input, and bytes after that length change nothing. *)
Lemma readValue_loop_bound (whole buf : string) :
  forall (s : json.scanner) (scanp n : nat),
    json.readValue_loop whole s buf scanp = inr n ->
    scanp <= n <= scanp + String.length buf.
Proof.
  induction buf as [| c buf IH]; intros s scanp n; cbn.
  - destruct (json.isEnd _); [| destruct (json.nonSpace whole); discriminate].
    intros [= <-]. lia.
  - destruct (json.apply s c) as [s1 code].
    destruct (json.stateEndValue s1 " ") as [s2 code2].
    destruct code; try (intros Hn; apply IH in Hn; lia); try discriminate.
    + destruct (json.isEnd code2); [intros [= <-]; lia | intros Hn; apply IH in Hn; lia].
    + destruct (json.isEnd code2); [intros [= <-]; lia | intros Hn; apply IH in Hn; lia].
    + intros [= <-]. lia.
Qed.

Lemma readValue_loop_extend (whole whole' buf extra : string) :
  forall (s : json.scanner) (scanp n : nat),
    json.readValue_loop whole s buf scanp = inr n ->
    n < scanp + String.length buf ->
    json.readValue_loop whole' s (buf ++ extra) scanp = inr n.
Proof.
  induction buf as [| c buf IH]; intros s scanp n.
  - intros Hn Hlt. apply readValue_loop_bound in Hn. cbn in *. lia.
  - rewrite append_String. cbn.
    destruct (json.apply s c) as [s1 code].
    destruct (json.stateEndValue s1 " ") as [s2 code2].
    destruct code; try (intros Hn Hlt; apply IH; [exact Hn | lia]); try discriminate;
      try (intros Hn _; exact Hn).
    + destruct (json.isEnd code2); [intros Hn _; exact Hn |].
      intros Hn Hlt; apply IH; [exact Hn | lia].
    + destruct (json.isEnd code2); [intros Hn _; exact Hn |].
      intros Hn Hlt; apply IH; [exact Hn | lia].
Qed.

Lemma Decode_extend {T : Type} `{json.Unmarshaler T} (body extra : string)
    (v : option T) (n : nat) :
  json.readValue body = inr n ->
  n < String.length body ->
  json.Decode (body ++ extra) v = json.Decode body v.
Proof.
  intros Hn Hlt. unfold json.Decode, json.readValue in *.
  rewrite (readValue_loop_extend body (body ++ extra) body extra _ _ _ Hn) by (cbn; lia).
  rewrite Hn, take_append_le by lia. reflexivity.
Qed.

Lemma NewClient_client {catalogService : Type}
    (newCatalogService : Client catalogService -> catalogService)
    (baseURL ns : string) (httpClient : option http.Client) (tok : string)
    (c : Client catalogService) :
  NewClient newCatalogService baseURL ns httpClient tok = (Some c, None) ->
  client c = Some (match httpClient with
                   | Some h => h
                   | None => http.mkClient None 0
                   end).
Proof.
  unfold NewClient. cbv zeta.
  destruct (url.Parse _) as [err | baseEndpoint]; [discriminate |].
  intros [= <-]. destruct httpClient; reflexivity.
Qed.

(** X11. On a client that [NewClient] returned, [do] finds an HTTP client
    to call: [NewClient] never leaves the [client] field nil. Given a
    request and a context that are not nil, [do] hands the request, with
    the context attached and nothing else changed, to the HTTP client that
    was given to [NewClient] (a zero [http.Client] when none was). When
    that call returns, [do] returns; the response it returns is nil
    exactly when the call failed, and then the error is the error of the
    call and the destination is as it was. *)
Theorem do_on_constructed_client {catalogService T : Type} `{json.Unmarshaler T}
    (newCatalogService : Client catalogService -> catalogService)
    (http_Client_Do : http.Client -> http.Request -> result error http.Response)
    (baseURL ns : string) (httpClient : option http.Client) (tok : string)
    (c : Client catalogService)
    (ctx : context.Context) (req : http.Request) (v : option T) :
  NewClient newCatalogService baseURL ns httpClient tok = (Some c, None) ->
  exists (resp : option http.Response) (err : option error) (v' : option T),
    do http_Client_Do c ctx req v = Returns (resp, err, v')
    /\ (resp = None <->
        exists e : error,
          http_Client_Do
            (match httpClient with
             | Some h => h
             | None => http.mkClient None 0
             end)
            (http.mkRequest ctx (http.Method req) (http.URL req) (http.Header_ req)
                            (http.Body req) (http.ContentLength req) (http.Host req))
          = inl e)
    /\ (forall e : error,
          http_Client_Do
            (match httpClient with
             | Some h => h
             | None => http.mkClient None 0
             end)
            (http.mkRequest ctx (http.Method req) (http.URL req) (http.Header_ req)
                            (http.Body req) (http.ContentLength req) (http.Host req))
          = inl e ->
          err = Some e /\ v' = v).
Proof.
  intros Hnew.
  pose proof (NewClient_client _ _ _ _ _ _ Hnew) as Hc.
  unfold do. rewrite Hc. unfold http.WithContext.
  destruct (http_Client_Do _ _) as [e | resp].
  - eexists _, _, _. split; [reflexivity |]. split; [split; eauto |].
    intros e' [= <-]. split; reflexivity.
  - destruct (json.Decode _ v) as [v' decErr].
    eexists _, _, _. split; [reflexivity |].
    split; [split; [discriminate | intros [e He]; discriminate] |].
    intros e He. discriminate He.
Qed.

Lemma do_on_constructed_client_witness :
  exists (c : Client unit) (resp : option http.Response) (err : option error)
         (v' : option bool),
    NewClient (fun _ => tt) "http://localhost:7007" EmptyString None EmptyString
      = (Some c, None)
    /\ do unreachable c context.Background sampleRequest (Some false)
       = Returns (resp, err, v')
    /\ resp = None
    /\ v' = Some false.
Proof.
  eexists.
  assert (Hnew : NewClient (fun _ : Client unit => tt) "http://localhost:7007"
                   EmptyString None EmptyString = (Some _, None))
    by (vm_compute; reflexivity).
  destruct (do_on_constructed_client (fun _ : Client unit => tt) unreachable
              "http://localhost:7007" EmptyString None EmptyString _
              context.Background sampleRequest (Some false) Hnew)
    as (resp & err & v' & Hdo & Hnil & Hfail).
  exists resp, err, v'. split; [exact Hnew |]. split; [exact Hdo |].
  split.
  - apply Hnil. eexists. reflexivity.
  - exact (proj2 (Hfail _ eq_refl)).
Defined.

(** X12. Every response that [do] returns has its body closed, also when
    the decoding failed; and the error that comes with a response is never
    [io.EOF]. *)
Theorem do_closes_body {catalogService T : Type} `{json.Unmarshaler T}
    (http_Client_Do : http.Client -> http.Request -> result error http.Response)
    (c : Client catalogService) (ctx : context.Context) (req : http.Request)
    (v v' : option T) (r : http.Response) (err : option error) :
  do http_Client_Do c ctx req v = Returns (Some r, err, v') ->
  http.closed (http.RespBody r) = true /\ err <> Some io_EOF.
Proof.
  unfold do. destruct (client c) as [hc |]; [| discriminate].
  destruct (http_Client_Do hc _) as [e | resp]; [discriminate |].
  destruct (json.Decode _ v) as [v1 decErr].
  intros [= <- <- _]. split; [reflexivity |].
  destruct decErr as [[] |]; cbn; discriminate.
Qed.

Lemma do_closes_body_witness :
  exists (r : http.Response) (err : option error) (v' : option bool),
    do (stubServer 500 "oops") sampleClient context.Background sampleRequest (Some false)
      = Returns (Some r, err, v')
    /\ http.closed (http.RespBody r) = true.
Proof.
  eexists _, _, _. split; [vm_compute; reflexivity |].
  refine (proj1 (do_closes_body (stubServer 500 "oops") sampleClient context.Background
                   sampleRequest (Some false) _ _ _ _)).
  vm_compute. reflexivity.
Defined.

(** X13. [do] does not look at the status code or at the headers of the
    response: two responses with the same body give the same error and the
    same content of the destination, whatever their status. *)
Theorem do_ignores_status {catalogService T : Type} `{json.Unmarshaler T}
    (do1 do2 : http.Client -> http.Request -> result error http.Response)
    (c : Client catalogService) (httpClient : http.Client)
    (ctx : context.Context) (req : http.Request) (v : option T)
    (resp1 resp2 : http.Response) :
  client c = Some httpClient ->
  do1 httpClient (http.WithContext req ctx) = inr resp1 ->
  do2 httpClient (http.WithContext req ctx) = inr resp2 ->
  http.content (http.RespBody resp1) = http.content (http.RespBody resp2) ->
  exists (err : option error) (v' : option T),
    do do1 c ctx req v = Returns (Some (closeBody resp1), err, v')
    /\ do do2 c ctx req v = Returns (Some (closeBody resp2), err, v').
Proof.
  intros Hc H1 H2 Hbody.
  rewrite (do_transport_success do1 _ _ _ _ _ _ Hc H1).
  rewrite (do_transport_success do2 _ _ _ _ _ _ Hc H2).
  rewrite Hbody. eexists _, _. split; reflexivity.
Qed.

Lemma do_ignores_status_witness :
  exists (err : option error) (v' : option bool),
    do (stubServer 200 "true") sampleClient context.Background sampleRequest (Some false)
      = Returns (Some (http.mkResponse 200 ∅ (http.mkReadCloser "true" true)), err, v')
    /\ do (stubServer 500 "true") sampleClient context.Background sampleRequest (Some false)
       = Returns (Some (http.mkResponse 500 ∅ (http.mkReadCloser "true" true)), err, v').
Proof.
  refine (do_ignores_status (stubServer 200 "true") (stubServer 500 "true") sampleClient
            http.zeroClient context.Background sampleRequest (Some false)
            (http.mkResponse 200 ∅ (http.mkReadCloser "true" false))
            (http.mkResponse 500 ∅ (http.mkReadCloser "true" false)) _ _ _ _);
    reflexivity.
Defined.

(** X14. When the body does not hold a complete, well-formed JSON value,
    the destination is left as it was: nothing is stored from a malformed
    or truncated body. The error returned is then a syntax error or
    [io.ErrUnexpectedEOF], and none when the body is white space only. *)
Theorem do_malformed_body_keeps_destination {catalogService T : Type}
    `{json.Unmarshaler T}
    (http_Client_Do : http.Client -> http.Request -> result error http.Response)
    (c : Client catalogService) (httpClient : http.Client)
    (ctx : context.Context) (req : http.Request) (v : option T)
    (resp : http.Response) (e : error) :
  client c = Some httpClient ->
  http_Client_Do httpClient (http.WithContext req ctx) = inr resp ->
  json.readValue (http.content (http.RespBody resp)) = inl e ->
  exists err : option error,
    do http_Client_Do c ctx req v = Returns (Some (closeBody resp), err, v)
    /\ (err = None <-> all json.isSpace (http.content (http.RespBody resp)) = true)
    /\ (err = None \/ err = Some io_ErrUnexpectedEOF
        \/ exists msg, err = Some (json_SyntaxError msg)).
Proof.
  intros Hc Hdo Hread.
  rewrite (do_transport_success _ _ _ _ _ _ _ Hc Hdo).
  unfold json.Decode. rewrite Hread. cbn [fst snd].
  eexists. split; [reflexivity |].
  pose proof (readValue_EOF_iff (http.content (http.RespBody resp))) as Hblank.
  rewrite Hread in Hblank.
  unfold json.readValue in Hread.
  destruct (readValue_loop_errors _ _ json.reset _ _ I Hread) as [-> | [-> | [msg ->]]]; cbn.
  - split; [| auto]. split; [intros _; apply Hblank; reflexivity | reflexivity].
  - split; [| auto]. split; [discriminate |].
    intros Hall. apply Hblank in Hall. discriminate.
  - split; [| eauto]. split; [discriminate |].
    intros Hall. apply Hblank in Hall. discriminate.
Qed.

Lemma do_malformed_body_keeps_destination_witness :
  exists err : option error,
    do (stubServer 200 "[1,") sampleClient context.Background sampleRequest (Some true)
      = Returns (Some (http.mkResponse 200 ∅ (http.mkReadCloser "[1," true)), err, Some true)
    /\ err <> None.
Proof.
  destruct (do_malformed_body_keeps_destination (stubServer 200 "[1,") sampleClient
              http.zeroClient context.Background sampleRequest (Some true)
              (http.mkResponse 200 ∅ (http.mkReadCloser "[1," false))
              io_ErrUnexpectedEOF eq_refl eq_refl ltac:(vm_compute; reflexivity))
    as (err & Hdo & Hblank & _).
  exists err. split; [exact Hdo |].
  intros Hnone. apply Hblank in Hnone. vm_compute in Hnone. discriminate.
Defined.

(** X15. [do] reads the first JSON value of the body and nothing after
    it: when the value ends before the end of the body, any bytes put
    after the body change neither the error nor what is stored in the
    destination. Trailing garbage is not reported. *)
Theorem do_ignores_trailing_bytes {catalogService T : Type} `{json.Unmarshaler T}
    (do1 do2 : http.Client -> http.Request -> result error http.Response)
    (c : Client catalogService) (httpClient : http.Client)
    (ctx : context.Context) (req : http.Request) (v : option T)
    (resp1 resp2 : http.Response) (extra : string) (n : nat) :
  client c = Some httpClient ->
  do1 httpClient (http.WithContext req ctx) = inr resp1 ->
  do2 httpClient (http.WithContext req ctx) = inr resp2 ->
  json.readValue (http.content (http.RespBody resp1)) = inr n ->
  n < String.length (http.content (http.RespBody resp1)) ->
  http.content (http.RespBody resp2) = http.content (http.RespBody resp1) ++ extra ->
  exists (err : option error) (v' : option T),
    do do1 c ctx req v = Returns (Some (closeBody resp1), err, v')
    /\ do do2 c ctx req v = Returns (Some (closeBody resp2), err, v').
Proof.
  intros Hc H1 H2 Hn Hlt Hbody.
  rewrite (do_transport_success do1 _ _ _ _ _ _ Hc H1).
  rewrite (do_transport_success do2 _ _ _ _ _ _ Hc H2).
  rewrite Hbody, (Decode_extend _ extra v n Hn Hlt).
  eexists _, _. split; reflexivity.
Qed.

Lemma do_ignores_trailing_bytes_witness :
  exists (err : option error) (v' : option bool),
    do (stubServer 200 "true ") sampleClient context.Background sampleRequest (Some false)
      = Returns (Some (http.mkResponse 200 ∅ (http.mkReadCloser "true " true)), err, v')
    /\ do (stubServer 200 "true }garbage") sampleClient context.Background sampleRequest
          (Some false)
       = Returns (Some (http.mkResponse 200 ∅ (http.mkReadCloser "true }garbage" true)),
                  err, v').
Proof.
  refine (do_ignores_trailing_bytes (stubServer 200 "true ") (stubServer 200 "true }garbage")
            sampleClient http.zeroClient context.Background sampleRequest (Some false)
            (http.mkResponse 200 ∅ (http.mkReadCloser "true " false))
            (http.mkResponse 200 ∅ (http.mkReadCloser "true }garbage" false))
            "}garbage" 4 _ _ _ _ _ _);
    try reflexivity.
  vm_compute. lia.
Defined.

(** X16. [newRequest] drops the error of [url.JoinPath]. When the path of
    the base URL does not parse as a URL (it holds a percent sign that
    starts no escape, say), the join is empty and the path of the target
    is lost: two targets that differ in their path only give the same
    result. *)
Theorem newRequest_loses_path_when_join_fails {catalogService T : Type}
    `{json.Marshaler T}
    (c : Client catalogService) (base : url.URL) (e : error)
    (method urlStr1 urlStr2 : string) (body : option T) (u1 u2 : url.URL) :
  BaseURL c = Some base ->
  url.Parse (url.Path base) = inl e ->
  url.Parse urlStr1 = inr u1 ->
  url.Parse urlStr2 = inr u2 ->
  url.assignPath u1 EmptyString = url.assignPath u2 EmptyString ->
  newRequest c method urlStr1 body = newRequest c method urlStr2 body.
Proof.
  intros Hbase Hjoin H1 H2 Hsame.
  unfold newRequest. rewrite H1, H2, Hbase.
  unfold url.JoinPath. rewrite Hjoin. cbn [fst]. rewrite Hsame. reflexivity.
Qed.

Lemma newRequest_loses_path_when_join_fails_witness :
  let base := url.mkURL "http" EmptyString None "localhost:7007" "/100%/api" EmptyString
                        false false EmptyString EmptyString EmptyString in
  let c : Client unit :=
    mkClient (Some http.zeroClient) (Some base) userAgent DefaultNamespaceName (Some tt)
             EmptyString in
  NewClient (fun _ => tt) "http://localhost:7007/100%25" EmptyString None EmptyString
    = (Some c, None)
  /\ newRequest c "GET" "/catalog/entities" (@None bool)
     = newRequest c "GET" "/catalog/locations" (@None bool)
  /\ exists req : http.Request,
      newRequest c "GET" "/catalog/entities" (@None bool) = (Some req, None)
      /\ url.String_ (http.URL req) = "http://localhost:7007/100%25/api".
Proof.
  intros base c. split; [vm_compute; reflexivity |]. split.
  - refine (newRequest_loses_path_when_join_fails c base
              (url_Error "parse" "/100%/api" (url_EscapeError "%/a"))
              "GET" "/catalog/entities" "/catalog/locations" (@None bool)
              (url.mkURL EmptyString EmptyString None EmptyString "/catalog/entities"
                         EmptyString false false EmptyString EmptyString EmptyString)
              (url.mkURL EmptyString EmptyString None EmptyString "/catalog/locations"
                         EmptyString false false EmptyString EmptyString EmptyString)
              _ _ _ _ _); vm_compute; reflexivity.
  - eexists. split; [vm_compute; reflexivity |]. vm_compute. reflexivity.
Defined.
